(** * ClipBeat: the item-cycling engine of [main.py]

    A shallow embedding of the navigation code of [ClipBeatApp]
    ([_refresh_items], [_update_label], [_highlight_current],
    [_copy_current], [next_item], [prev_item]) and of the global hot-key
    registration ([_reset_keyboard_hotkeys], [_register_global_hooks]).

    Python values are modelled as follows.
    - [str] is a list of Unicode code points ([N]); [str.splitlines] and
      [str.strip] follow CPython's line-break and white-space tables.
    - [int] is [Z]; Python's [%] is [Z.modulo] (the result has the sign of
      the divisor in both) and list indexing accepts negative indices.
    - A method is a function from the application state to an [Outcome]:
      it returns with a new state, or raises with the state it had reached.
    - Calls into the toolkit (tags, label, clipboard) update the matching
      field of the state and are appended to an effect log, in call order. *)

From Stdlib Require Import ZArith NArith Bool String Ascii List Lia.
From Stdlib Require Import DecimalString Sorting.Sorted.
Import ListNotations.

Local Open Scope Z_scope.

(** ** Python strings *)

Module PyStr.

Definition char := N.
Definition str := list char.

(** A literal written with ASCII characters. *)
Definition lit (s : string) : str := map N_of_ascii (list_ascii_of_string s).

Definition LF : char := 10%N.
Definition CR : char := 13%N.

Definition between (lo hi c : N) : bool := (N.leb lo c && N.leb c hi)%bool.

(** The characters [str.splitlines] breaks at. *)
Definition is_linebreak (c : char) : bool :=
  (between 10 13 c || between 28 30 c || N.eqb c 133
   || N.eqb c 8232 || N.eqb c 8233)%bool.

(** The characters [str.strip] removes ([str.isspace]). *)
Definition is_space (c : char) : bool :=
  (between 9 13 c || between 28 32 c || N.eqb c 133 || N.eqb c 160
   || N.eqb c 5760 || between 8192 8202 c || N.eqb c 8232 || N.eqb c 8233
   || N.eqb c 8239 || N.eqb c 8287 || N.eqb c 12288)%bool.

(** [splitlines_from cur s]: [cur] holds, reversed, the characters of the
    line being read.  A carriage return directly followed by a line feed is
    one break; a final line break opens no further line. *)
Fixpoint splitlines_from (cur : str) (s : str) : list str :=
  match s with
  | [] => match cur with [] => [] | _ => [rev cur] end
  | c :: rest =>
      if is_linebreak c then
        rev cur ::
          (if N.eqb c CR then
             match rest with
             | c' :: rest' =>
                 if N.eqb c' LF then splitlines_from [] rest'
                 else splitlines_from [] rest
             | [] => splitlines_from [] rest
             end
           else splitlines_from [] rest)
      else splitlines_from (c :: cur) rest
  end.

Definition splitlines (s : str) : list str := splitlines_from [] s.

Fixpoint lstrip (s : str) : str :=
  match s with
  | c :: rest => if is_space c then lstrip rest else s
  | [] => []
  end.

Definition rstrip (s : str) : str := rev (lstrip (rev s)).

Definition strip (s : str) : str := rstrip (lstrip s).

(** Truth value of a string in a condition: non-empty. *)
Definition truthy (s : str) : bool :=
  match s with [] => false | _ => true end.

(** [str(i)] for an [int]. *)
Definition str_of_int (i : Z) : str := lit (NilZero.string_of_int (Z.to_int i)).

Definition eqb (a b : str) : bool :=
  if list_eq_dec N.eq_dec a b then true else false.

End PyStr.

Import PyStr.

(** ** Python lists *)

Definition len {A} (l : list A) : Z := Z.of_nat (List.length l).

(** [l[i]]: negative indices count from the end; [None] is [IndexError]. *)
Definition getitem {A} (l : list A) (i : Z) : option A :=
  if (0 <=? i) && (i <? len l) then nth_error l (Z.to_nat i)
  else if (- len l <=? i) && (i <? 0) then nth_error l (Z.to_nat (len l + i))
  else None.

(** [enumerate(l, start)]. *)
Fixpoint enumerate {A} (start : Z) (l : list A) : list (Z * A) :=
  match l with
  | [] => []
  | x :: l' => (start, x) :: enumerate (start + 1) l'
  end.

(** ** Exceptions and outcomes *)

Inductive exn :=
| IndexError
| TclError
| ValueError (msg : str).

(** What a call leaves behind: the state on return, or the exception and
    the state reached when it was raised (mutations are not rolled back). *)
Inductive Outcome (S : Type) :=
| Returned (st : S)
| Raised (e : exn) (st : S).
Arguments Returned {S} st.
Arguments Raised {S} e st.

Definition state_of {S} (o : Outcome S) : S :=
  match o with Returned st => st | Raised _ st => st end.

Definition returned {S} (o : Outcome S) : bool :=
  match o with Returned _ => true | Raised _ _ => false end.

Definition M (S : Type) := S -> Outcome S.

Definition andthen {S} (m1 m2 : M S) : M S :=
  fun st => match m1 st with
            | Returned st' => m2 st'
            | Raised e st' => Raised e st'
            end.

Declare Scope py_scope.
Delimit Scope py_scope with py.
Notation "m1 ;; m2" := (andthen m1 m2)
  (at level 61, right associativity) : py_scope.
Local Open Scope py_scope.

(** ** Navigation *)

Module Nav.

(** Calls into the toolkit, as logged. *)
Inductive Effect :=
| TagRemove
| TagAdd (line : Z)
| See (line : Z)
| ClipboardClear
| ClipboardAppend (s : str)
| Update
| LabelConfigure (s : str).

(** [text] is the content of the text box ([get("1.0", "end-1c")]), which
    the user edits; [items], [line_map] and [index] are the attributes of
    the same names; [label] is the text of [index_lbl]; [tagged] lists the
    lines the application has put the [current_item] tag on by its last tag
    calls (how the widget moves a tag when the text under it is edited is
    not modelled); [clipboard] is what the application last left on the
    clipboard. *)
Record App := mkApp {
  text : str;
  items : list str;
  line_map : list Z;
  index : Z;
  label : str;
  tagged : list Z;
  clipboard : str;
  log : list Effect
}.

(** The clipboard as the host offers it at one call: each of the two
    clipboard operations either works or raises. *)
Record Host := mkHost {
  clear_ok : bool;
  append_ok : bool
}.

Definition working : Host := mkHost true true.

Definition set_parsed (its : list str) (lm : list Z) (i : Z) (a : App) : App :=
  mkApp (text a) its lm i (label a) (tagged a) (clipboard a) (log a).
Definition set_index (i : Z) (a : App) : App :=
  mkApp (text a) (items a) (line_map a) i (label a) (tagged a) (clipboard a)
        (log a).
Definition set_label (s : str) (a : App) : App :=
  mkApp (text a) (items a) (line_map a) (index a) s (tagged a) (clipboard a)
        (log a ++ [LabelConfigure s]).
Definition set_tagged (t : list Z) (e : list Effect) (a : App) : App :=
  mkApp (text a) (items a) (line_map a) (index a) (label a) t (clipboard a)
        (log a ++ e).
Definition set_clipboard (c : str) (e : list Effect) (a : App) : App :=
  mkApp (text a) (items a) (line_map a) (index a) (label a) (tagged a) c
        (log a ++ e).
(** The user replaces the content of the text box. *)
Definition set_text (t : str) (a : App) : App :=
  mkApp t (items a) (line_map a) (index a) (label a) (tagged a) (clipboard a)
        (log a).

(** The state [__init__] leaves: empty text box, label ["0 / 0"]. *)
Definition init : App := mkApp [] [] [] 0 (lit "0 / 0") [] [] [].

(** One round of the loop of [_refresh_items]. *)
Definition refresh_step (acc : list str * list Z) (p : Z * str)
  : list str * list Z :=
  let '(lineno, ln) := p in
  if truthy (strip ln) then (fst acc ++ [strip ln], snd acc ++ [lineno])
  else acc.

Definition _refresh_items : M App := fun a =>
  let raw := splitlines (text a) in
  let acc := fold_left refresh_step (enumerate 1 raw) ([], []) in
  Returned (set_parsed (fst acc) (snd acc)
              (Z.min (index a) (Z.max 0 (len (fst acc) - 1))) a).

Definition _update_label : M App := fun a =>
  let total := len (items a) in
  let shown := if total =? 0 then 0 else index a mod total + 1 in
  Returned (set_label (str_of_int shown ++ lit " / " ++ str_of_int total) a).

Definition _highlight_current : M App := fun a =>
  let a1 := set_tagged [] [TagRemove] a in
  match items a1 with
  | [] => Returned a1
  | _ :: _ =>
      match getitem (line_map a1) (index a1) with
      | None => Raised IndexError a1
      | Some cur_line =>
          Returned (set_tagged (tagged a1 ++ [cur_line])
                      [TagAdd cur_line; See cur_line] a1)
      end
  end.

Section WithHost.

Variable h : Host.

Definition clipboard_clear : M App := fun a =>
  if clear_ok h then Returned (set_clipboard [] [ClipboardClear] a)
  else Raised TclError a.

Definition clipboard_append (s : str) : M App := fun a =>
  if append_ok h then
    Returned (set_clipboard (clipboard a ++ s) [ClipboardAppend s] a)
  else Raised TclError a.

(** [self.update()]: the toolkit handles its pending events; no navigation
    is pending in this model, so only the call is recorded. *)
Definition update : M App := fun a =>
  Returned (set_clipboard (clipboard a) [Update] a).

Definition _copy_current : M App := fun a =>
  match items a with
  | [] => Returned a
  | _ :: _ =>
      (clipboard_clear ;;
       (fun a1 => match getitem (items a1) (index a1) with
                  | None => Raised IndexError a1
                  | Some s => clipboard_append s a1
                  end) ;;
       update) a
  end.

Definition next_item : M App :=
  _refresh_items ;;
  (fun a =>
     match items a with
     | [] => Returned a
     | _ :: _ =>
         (_highlight_current ;;
          _copy_current ;;
          _update_label ;;
          (fun a' => Returned (set_index ((index a' + 1) mod len (items a')) a')))
           a
     end).

Definition prev_item : M App :=
  _refresh_items ;;
  (fun a =>
     match items a with
     | [] => Returned a
     | _ :: _ =>
         ((fun a' => Returned (set_index ((index a' - 1) mod len (items a')) a')) ;;
          _highlight_current ;;
          _copy_current ;;
          _update_label) a
     end).

End WithHost.

(** The item sequence in the words of the design: the lines of the text,
    numbered from 1, blank ones dropped, each trimmed. *)
Definition parse_spec (t : str) : list (Z * str) :=
  map (fun p => (fst p, strip (snd p)))
      (filter (fun p => truthy (strip (snd p))) (enumerate 1 (splitlines t))).

(** The label for position [pos] of [n]. *)
Definition label_of (pos n : Z) : str :=
  str_of_int pos ++ lit " / " ++ str_of_int n.

(** The state after [_refresh_items]: the parsed attributes and the
    clamped cursor. *)
Definition refreshed (a : App) : App :=
  let seq := parse_spec (text a) in
  set_parsed (map snd seq) (map fst seq)
    (Z.min (index a) (Z.max 0 (len seq - 1))) a.

(** The state after a highlight of line [ln]. *)
Definition highlighted (ln : Z) (a : App) : App :=
  set_tagged [ln] [TagAdd ln; See ln] (set_tagged [] [TagRemove] a).

(** The state once the clipboard was emptied, and once [s] was copied. *)
Definition cleared (a : App) : App := set_clipboard [] [ClipboardClear] a.
Definition copied (s : str) (a : App) : App :=
  set_clipboard s [Update] (set_clipboard s [ClipboardAppend s] (cleared a)).

(** Every line of the text is blank. *)
Definition all_blank (t : str) : bool :=
  forallb (fun ln => negb (truthy (strip ln))) (splitlines t).

(** The text of the worked example: lines [a], blank, [b], [c]. *)
Definition abc_text : str := lit "a" ++ [LF; LF] ++ lit "b" ++ [LF] ++ lit "c".

(** A numbered line that is kept by the parse. *)
Definition nonblank (p : Z * str) : bool := truthy (strip (snd p)).

(** A state reached with the cursor on the third item, and the text then
    cut down to its first line. *)
Definition shrunk : App :=
  set_text (lit "a")
    (state_of (prev_item working (set_text abc_text init))).

(** Two lines, [a] and [b], in a fresh application. *)
Definition two_lines : App := set_text (lit "a" ++ [LF] ++ lit "b") init.

(** A clipboard that cannot be emptied, and one that cannot be written. *)
Definition locked : Host := mkHost false true.
Definition read_only : Host := mkHost true false.

(** One line copied, then the text box emptied. *)
Definition emptied : App :=
  set_text [] (state_of (next_item working (set_text (lit "a") init))).

(** The states the application can be in: the initial one, and those left
    by an edit of the text or by a navigation call, returned or raised,
    whatever the clipboard did. *)
Inductive reachable : App -> Prop :=
| reach_init : reachable init
| reach_edit a t : reachable a -> reachable (set_text t a)
| reach_next a h : reachable a -> reachable (state_of (next_item h a))
| reach_prev a h : reachable a -> reachable (state_of (prev_item h a)).

End Nav.

(** ** Global hot-keys *)

Module Hooks.

(** The two navigation methods a binding can lead to. *)
Inductive Action := ActNext | ActPrev.

(** How a bound callback reaches its method: [Direct] calls it where the
    event is handled (the local bindings, [lambda _: self.next_item()]);
    [TkSafe] goes through [tk_safe], which hands the method to
    [root.after(0, ...)]. *)
Inductive Callback :=
| Direct (a : Action)
| TkSafe (a : Action).

(** [_GLOBAL_HOOK_BACKEND]. *)
Inductive Backend := BackendKeyboard | BackendPynput | BackendNone.

(** The value the module-level imports leave in [_GLOBAL_HOOK_BACKEND]. *)
Definition global_hook_backend (keyboard_found pynput_found : bool) : Backend :=
  let b := if keyboard_found then BackendKeyboard else BackendNone in
  if pynput_found then b
  else match b with BackendKeyboard => b | _ => BackendNone end.

(** The [keyboard] package as installed: which of its three names for
    removing every hot-key exist, and which combos [add_hotkey] refuses
    ([rejects combo = Some msg]: it raises [ValueError(msg)]). *)
Record KeyboardLib := mkKeyboardLib {
  has_clear_all_hotkeys : bool;
  has_remove_all_hotkeys : bool;
  has_unhook_all_hotkeys : bool;
  rejects : str -> option str
}.

Record Env := mkEnv {
  backend : Backend;
  kb : KeyboardLib;
  pynput_found : bool
}.

(** [hotkeys] is [self.hotkeys] in iteration order; [local_bindings] are
    the window's own key bindings; [registered] is the set of hot-keys the
    [keyboard] package holds; [dialogs] are the error boxes shown (title,
    message); [listeners] are the hot-keys of started listener threads. *)
Record Hooks := mkHooks {
  hotkeys : list (str * str);
  local_bindings : list (str * Callback);
  registered : list (str * Callback);
  dialogs : list (str * str);
  listeners : list (str * Callback)
}.

Definition set_registered (r : list (str * Callback)) (s : Hooks) : Hooks :=
  mkHooks (hotkeys s) (local_bindings s) r (dialogs s) (listeners s).
Definition set_dialogs (d : list (str * str)) (s : Hooks) : Hooks :=
  mkHooks (hotkeys s) (local_bindings s) (registered s) d (listeners s).
Definition set_listeners (l : list (str * Callback)) (s : Hooks) : Hooks :=
  mkHooks (hotkeys s) (local_bindings s) (registered s) (dialogs s) l.
Definition set_hotkeys (k : list (str * str)) (s : Hooks) : Hooks :=
  mkHooks k (local_bindings s) (registered s) (dialogs s) (listeners s).



Section WithEnv.

Variable env : Env.

(** The chain of attempts: the first name that exists removes every
    hot-key; when none exists the last failure is swallowed. *)
Definition _reset_keyboard_hotkeys : M Hooks := fun s =>
  if has_clear_all_hotkeys (kb env) then Returned (set_registered [] s)
  else if has_remove_all_hotkeys (kb env) then Returned (set_registered [] s)
  else if has_unhook_all_hotkeys (kb env) then Returned (set_registered [] s)
  else Returned s.

(** [keyboard.add_hotkey(combo, callback)]: the combo is refused with a
    [ValueError] or the hot-key is added.  Other failures of the package
    (missing privileges, a broken installation) are not modelled. *)
Definition add_hotkey (combo : str) (f : Callback) : M Hooks := fun s =>
  match rejects (kb env) combo with
  | Some msg => Raised (ValueError msg) s
  | None => Returned (set_registered (registered s ++ [(combo, f)]) s)
  end.

Definition hotkey_error : str := lit "Hot" ++ [8209%N] ++ lit "key error".

(** [messagebox.showerror(title, message)]. *)
Definition showerror (title message : str) : M Hooks := fun s =>
  Returned (set_dialogs (dialogs s ++ [(title, message)]) s).

(** The method the callback of [action] picks:
    [self.next_item if a == "next" else self.prev_item]. *)
Definition action_of (action : str) : Action :=
  if PyStr.eqb action (lit "next") then ActNext else ActPrev.

(** The body of the loop over [self.hotkeys.items()], with its handler. *)
Definition register_one (p : str * str) : M Hooks := fun s =>
  let '(action, combo) := p in
  match add_hotkey combo (TkSafe (action_of action)) s with
  | Raised (ValueError exc) s' =>
      showerror hotkey_error
        (lit "Could not bind " ++ combo ++ lit ": " ++ exc) s'
  | o => o
  end.

Fixpoint for_each {S A} (body : A -> M S) (l : list A) : M S :=
  match l with
  | [] => fun s => Returned s
  | x :: l' => body x ;; for_each body l'
  end.

Definition _register_global_hooks : M Hooks := fun s =>
  match backend env with
  | BackendKeyboard =>
      (_reset_keyboard_hotkeys ;;
       (fun s' => for_each register_one (hotkeys s') s') ;;
       add_hotkey (lit "ctrl+v") (TkSafe ActNext)) s
  | BackendPynput =>
      if pynput_found env then
        Returned (set_listeners
                    (listeners s ++ [(lit "<ctrl>+v", TkSafe ActNext)]) s)
      else Returned s
  | BackendNone => Returned s
  end.


End WithEnv.

(** What one binding contributes: its hot-key when the combo is accepted,
    its error box when it is refused. *)
Definition entry_for (env : Env) (p : str * str) : list (str * Callback) :=
  match rejects (kb env) (snd p) with
  | None => [(snd p, TkSafe (action_of (fst p)))]
  | Some _ => []
  end.

Definition could_not_bind (combo exc : str) : str * str :=
  (hotkey_error, lit "Could not bind " ++ combo ++ lit ": " ++ exc).

Definition dialogs_for (env : Env) (p : str * str) : list (str * str) :=
  match rejects (kb env) (snd p) with
  | None => []
  | Some exc => [could_not_bind (snd p) exc]
  end.

(** The hot-key for pasting, when its combo is accepted. *)
Definition paste_entry (env : Env) : list (str * Callback) :=
  match rejects (kb env) (lit "ctrl+v") with
  | None => [(lit "ctrl+v", TkSafe ActNext)]
  | Some _ => []
  end.

(** Whether the package offers a way to remove every hot-key. *)
Definition can_reset (k : KeyboardLib) : bool :=
  has_clear_all_hotkeys k || has_remove_all_hotkeys k
  || has_unhook_all_hotkeys k.

(** A current [keyboard] package that refuses the combo [bad!!combo]. *)
Definition picky : Env :=
  mkEnv BackendKeyboard
    (mkKeyboardLib true true true
       (fun combo => if PyStr.eqb combo (lit "bad!!combo")
                     then Some (lit "unknown key")
                     else None))
    false.

(** Bindings with a refused combo for [next], an older hot-key still
    registered, and the local bindings in place. *)
Definition bad_next : Hooks :=
  mkHooks [(lit "next", lit "bad!!combo"); (lit "prev", lit "ctrl+left")]
          [(lit "<Right>", Direct ActNext); (lit "<Left>", Direct ActPrev)]
          [(lit "ctrl+shift+alt+right", TkSafe ActNext)] [] [].

(** [DEFAULT_HOTKEYS]. *)
Definition DEFAULT_HOTKEYS : list (str * str) :=
  [(lit "next", lit "ctrl+shift+alt+right");
   (lit "prev", lit "ctrl+shift+alt+left")].

Definition fresh : Hooks := mkHooks DEFAULT_HOTKEYS [] [] [] [].

End Hooks.


(** ** Repeated calls, and what the clipboard may hold *)

Module Cycle.

(** [k] calls of a method in a row; a call that raises ends the run. *)
Fixpoint times {St} (k : nat) (m : M St) : M St :=
  match k with
  | O => fun st => Returned st
  | S k' => m ;; times k' m
  end.

(** No line break inside. *)
Definition single_line (s : str) : bool :=
  forallb (fun c => negb (is_linebreak c)) s.

(** Not empty, and no white space at either end. *)
Definition trimmed (s : str) : bool :=
  match s with
  | [] => false
  | c :: _ => negb (is_space c) && negb (is_space (last s c))
  end.

End Cycle.

(** ** The settings dialog *)

Module Settings.
Import Hooks.

(** [d.get(key, default)] on a dictionary in iteration order. *)
Fixpoint dict_get (d : list (str * str)) (key default : str) : str :=
  match d with
  | [] => default
  | (k, v) :: d' => if PyStr.eqb k key then v else dict_get d' key default
  end.

(** The two entry fields of [SettingsDialog]. *)
Record SettingsDialog := mkDialog {
  next_var : str;
  prev_var : str
}.

(** [SettingsDialog.__init__]: the fields start from the bindings of the
    application, empty when a binding is missing. *)
Definition open_dialog (s : Hooks) : SettingsDialog :=
  mkDialog (dict_get (hotkeys s) (lit "next") [])
           (dict_get (hotkeys s) (lit "prev") []).

(** How a call that writes the settings file ends: the file was written
    and the registration ran, or the write raised, with the state reached. *)
Inductive Saved :=
| Registered (o : Outcome Hooks)
| WriteFailed (s : Hooks).

Definition hooks_of (r : Saved) : Hooks :=
  match r with Registered o => state_of o | WriteFailed s => s end.

Section WithFiles.

Variable env : Env.
(** Whether [_save_settings] manages to write the file. *)
Variable write_ok : bool.

(** [on_settings_saved]: replace the bindings, write them, register. *)
Definition on_settings_saved (new_hotkeys : list (str * str)) (s : Hooks)
  : Saved :=
  let s1 := set_hotkeys new_hotkeys s in
  if write_ok then Registered (_register_global_hooks env s1)
  else WriteFailed s1.

(** [SettingsDialog._save]: the result, and whether the dialog was
    destroyed (only when [on_settings_saved] returned). *)
Definition _save (d : SettingsDialog) (s : Hooks) : Saved * bool :=
  let r := on_settings_saved
             [(lit "next", strip (next_var d));
              (lit "prev", strip (prev_var d))] s in
  (r, match r with Registered (Returned _) => true | _ => false end).

End WithFiles.

(** The state in which the bindings have been gone through, before the
    paste hot-key is added. *)
Definition bound (env : Env) (s : Hooks) : Hooks :=
  mkHooks (hotkeys s) (local_bindings s)
    ((if can_reset (kb env) then [] else registered s)
     ++ flat_map (entry_for env) (hotkeys s))
    (dialogs s ++ flat_map (dialogs_for env) (hotkeys s))
    (listeners s).

(** A callback that goes through [tk_safe]. *)
Definition is_tk_safe (f : Callback) : bool :=
  match f with TkSafe _ => true | Direct _ => false end.

(** A [keyboard] package without any of the three removal names. *)
Definition ancient : Env :=
  mkEnv BackendKeyboard (mkKeyboardLib false false false (fun _ => None)) false.

End Settings.

(** * Properties *)

(** ** The string operations on examples *)

Example splitlines_blank_line :
  splitlines Nav.abc_text = [lit "a"; []; lit "b"; lit "c"].
Proof. reflexivity. Qed.

Example splitlines_final_break :
  splitlines (lit "a" ++ [CR; LF] ++ lit "b" ++ [LF]) = [lit "a"; lit "b"].
Proof. reflexivity. Qed.

Example splitlines_empty : splitlines [] = [].
Proof. reflexivity. Qed.

Example strip_both_ends : strip (lit "  a b " ++ [9%N]) = lit "a b".
Proof. reflexivity. Qed.

Example str_of_int_decimal : str_of_int 120 = lit "120".
Proof. reflexivity. Qed.

Example parse_spec_abc :
  Nav.parse_spec Nav.abc_text = [(1, lit "a"); (3, lit "b"); (4, lit "c")].
Proof. reflexivity. Qed.

(** ** Lists and indices *)

Lemma len_nonneg {A} (l : list A) : 0 <= len l.
Proof. unfold len; lia. Qed.

Lemma len_app {A} (l1 l2 : list A) : len (l1 ++ l2) = len l1 + len l2.
Proof. unfold len; rewrite length_app; lia. Qed.

Lemma len_map {A B} (f : A -> B) (l : list A) : len (map f l) = len l.
Proof. unfold len; now rewrite length_map. Qed.

Lemma len_zero_nil {A} (l : list A) : len l = 0 -> l = [].
Proof. destruct l; [reflexivity | unfold len; simpl; lia]. Qed.

Lemma len_pos {A} (l : list A) : l <> [] -> 0 < len l.
Proof. destruct l; [congruence | unfold len; simpl; lia]. Qed.

Lemma getitem_in_range {A} (l : list A) (i : Z) :
  0 <= i < len l -> getitem l i = nth_error l (Z.to_nat i).
Proof.
  intros Hi. unfold getitem.
  replace (0 <=? i) with true by (symmetry; apply Z.leb_le; lia).
  replace (i <? len l) with true by (symmetry; apply Z.ltb_lt; lia).
  reflexivity.
Qed.

Lemma getitem_some {A} (l : list A) (i : Z) :
  0 <= i < len l -> exists x, getitem l i = Some x.
Proof.
  intros Hi. rewrite getitem_in_range by exact Hi.
  destruct (nth_error l (Z.to_nat i)) as [x|] eqn:E; [now exists x|].
  apply nth_error_None in E. unfold len in Hi. lia.
Qed.

Lemma getitem_map {A B} (f : A -> B) (l : list A) (i : Z) :
  getitem (map f l) i = option_map f (getitem l i).
Proof.
  unfold getitem. rewrite len_map.
  destruct ((0 <=? i) && (i <? len l)); [apply nth_error_map|].
  destruct ((- len l <=? i) && (i <? 0)); [apply nth_error_map|reflexivity].
Qed.

(** ** [enumerate] *)

Lemma enumerate_length {A} (l : list A) (s : Z) :
  length (enumerate s l) = length l.
Proof. revert s; induction l; simpl; intros; [reflexivity | now rewrite IHl]. Qed.

Lemma enumerate_In {A} (l : list A) (s n : Z) (x : A) :
  In (n, x) (enumerate s l) <->
  s <= n /\ nth_error l (Z.to_nat (n - s)) = Some x.
Proof.
  revert s. induction l as [|y l IH]; intros s; simpl.
  - split; [tauto | intros [_ H]]. now destruct (Z.to_nat (n - s)).
  - rewrite IH. split.
    + intros [E | [Hle Hn]].
      * inversion E; subst. split; [lia|]. now rewrite Z.sub_diag.
      * split; [lia|].
        replace (Z.to_nat (n - s)) with (S (Z.to_nat (n - (s + 1)))) by lia.
        exact Hn.
    + intros [Hle Hn]. destruct (Z.eq_dec n s) as [->|Hne].
      * left. rewrite Z.sub_diag in Hn. simpl in Hn. congruence.
      * right. split; [lia|].
        replace (Z.to_nat (n - s)) with (S (Z.to_nat (n - (s + 1)))) in Hn
          by lia.
        exact Hn.
Qed.

Lemma enumerate_nth {A} (l : list A) (s : Z) (i : nat) (x : A) :
  nth_error l i = Some x -> In (s + Z.of_nat i, x) (enumerate s l).
Proof.
  intros H. apply enumerate_In. split; [lia|].
  now replace (Z.to_nat (s + Z.of_nat i - s)) with i by lia.
Qed.

Lemma enumerate_filter_sorted {A} (f : Z * A -> bool) (l : list A) (s : Z) :
  StronglySorted Z.lt (map fst (filter f (enumerate s l))).
Proof.
  revert s. induction l as [|y l IH]; intros s; simpl; [constructor|].
  destruct (f (s, y)); simpl; [|apply IH].
  constructor; [apply IH|].
  apply Forall_forall. intros n Hn.
  apply in_map_iff in Hn. destruct Hn as [[n' x] [<- Hin]].
  apply filter_In in Hin. destruct Hin as [Hin _].
  apply enumerate_In in Hin. simpl. lia.
Qed.

(** ** The parse step *)

Module NavFacts.
Import Nav.

(** The loop of [_refresh_items] appends, to what it started from, the
    trimmed non-blank lines and their numbers. *)
Lemma fold_refresh_step (l : list (Z * str)) (acc : list str * list Z) :
  fold_left refresh_step l acc =
  (fst acc ++ map (fun p => strip (snd p)) (filter nonblank l),
   snd acc ++ map fst (filter nonblank l)).
Proof.
  revert acc. induction l as [|[n ln] l IH]; intros [its lm]; simpl.
  - now rewrite !app_nil_r.
  - rewrite IH. change (nonblank (n, ln)) with (truthy (strip ln)).
    destruct (truthy (strip ln)); simpl; [|reflexivity].
    now rewrite <- !app_assoc.
Qed.

Lemma parse_spec_items (t : str) :
  map snd (parse_spec t) =
  map (fun p => strip (snd p)) (filter nonblank (enumerate 1 (splitlines t))).
Proof. unfold parse_spec. rewrite map_map. reflexivity. Qed.

Lemma parse_spec_lines (t : str) :
  map fst (parse_spec t) = map fst (filter nonblank (enumerate 1 (splitlines t))).
Proof. unfold parse_spec. rewrite map_map. reflexivity. Qed.

(** What [_refresh_items] does, in one equation. *)
Lemma refresh_items_eq (a : App) :
  _refresh_items a =
  Returned (set_parsed (map snd (parse_spec (text a)))
              (map fst (parse_spec (text a)))
              (Z.min (index a) (Z.max 0 (len (parse_spec (text a)) - 1))) a).
Proof.
  unfold _refresh_items. rewrite fold_refresh_step. simpl.
  rewrite <- parse_spec_items, <- parse_spec_lines, len_map. reflexivity.
Qed.

Lemma combine_fst_snd {A B} (l : list (A * B)) :
  combine (map fst l) (map snd l) = l.
Proof. induction l as [|[x y] l IH]; simpl; [reflexivity | now rewrite IH]. Qed.

Lemma filter_enumerate_map {A} (f : A -> bool) (l : list A) (s : Z) :
  map snd (filter (fun p => f (snd p)) (enumerate s l)) = filter f l.
Proof.
  revert s. induction l as [|x l IH]; intros s; simpl; [reflexivity|].
  destruct (f x); simpl; now rewrite IH.
Qed.

Lemma parse_spec_In (t : str) (n : Z) (s : str) :
  In (n, s) (parse_spec t) <->
  exists ln, 1 <= n /\ nth_error (splitlines t) (Z.to_nat (n - 1)) = Some ln
             /\ s = strip ln /\ truthy (strip ln) = true.
Proof.
  unfold parse_spec. rewrite in_map_iff. split.
  - intros [[n' ln] [E Hin]]. simpl in E. inversion E; subst.
    apply filter_In in Hin. destruct Hin as [Hin Hnb]. simpl in Hnb.
    apply enumerate_In in Hin. exists ln. tauto.
  - intros [ln [Hn [Hnth [-> Hnb]]]]. exists (n, ln). split; [reflexivity|].
    apply filter_In. split; [|exact Hnb]. apply enumerate_In. tauto.
Qed.

(** C5. For every text, the parse step of [_refresh_items] returns, with one
    item per non-blank line: the items are the non-blank lines of the text,
    trimmed, in the order of the text; each is paired in [line_map] with the
    1-based number of its line, the numbers increase, and a line's number is
    in [line_map] exactly when the line is not blank; the pairs are the item
    sequence of the design ([parse_spec]), so they depend on the text alone;
    the empty text gives no item; nothing but [items], [line_map] and
    [index] changes. *)
Theorem refresh_items_parses (a : App) :
  let lines := splitlines (text a) in
  let kept := filter (fun ln => truthy (strip ln)) lines in
  exists a',
    _refresh_items a = Returned a' /\
    combine (line_map a') (items a') = parse_spec (text a) /\
    items a' = map strip kept /\
    length (items a') = length kept /\
    length (line_map a') = length kept /\
    StronglySorted Z.lt (line_map a') /\
    (forall n s, In (n, s) (combine (line_map a') (items a')) ->
       1 <= n /\ s <> [] /\
       exists ln, nth_error lines (Z.to_nat (n - 1)) = Some ln /\ s = strip ln) /\
    (forall i ln, nth_error lines i = Some ln ->
       (In (Z.of_nat i + 1) (line_map a') <-> truthy (strip ln) = true)) /\
    (text a = [] -> items a' = [] /\ line_map a' = []) /\
    text a' = text a /\ label a' = label a /\ tagged a' = tagged a /\
    clipboard a' = clipboard a /\ log a' = log a.
Proof.
  intros lines kept. rewrite refresh_items_eq. eexists. split; [reflexivity|].
  simpl.
  assert (Hitems : map snd (parse_spec (text a)) = map strip kept).
  { rewrite parse_spec_items. unfold nonblank, kept, lines.
    rewrite <- (filter_enumerate_map (fun ln => truthy (strip ln))
                  (splitlines (text a)) 1).
    now rewrite map_map. }
  assert (Hlen : length (map fst (parse_spec (text a))) = length kept).
  { rewrite length_map, <- (length_map snd), Hitems. apply length_map. }
  split; [apply combine_fst_snd|].
  split; [exact Hitems|].
  split; [rewrite Hitems; apply length_map|].
  split; [exact Hlen|].
  split; [rewrite parse_spec_lines; apply enumerate_filter_sorted|].
  split.
  { intros n s Hin. rewrite combine_fst_snd in Hin.
    apply parse_spec_In in Hin. destruct Hin as [ln [Hn [Hnth [-> Hnb]]]].
    split; [exact Hn|]. split; [|now exists ln].
    intros E. rewrite E in Hnb. discriminate. }
  split.
  { intros i ln Hnth. rewrite in_map_iff. split.
    - intros [[n s] [E Hin]]. simpl in E. subst n.
      apply parse_spec_In in Hin. destruct Hin as [ln' [_ [Hnth' [_ Hnb]]]].
      replace (Z.to_nat (Z.of_nat i + 1 - 1)) with i in Hnth' by lia.
      fold lines in Hnth'. congruence.
    - intros Hnb. exists (Z.of_nat i + 1, strip ln). split; [reflexivity|].
      apply parse_spec_In. exists ln. split; [lia|].
      replace (Z.to_nat (Z.of_nat i + 1 - 1)) with i by lia. tauto. }
  split.
  { intros E. unfold parse_spec. rewrite E. simpl. tauto. }
  repeat split.
Qed.

(** ** The steps of a navigation call *)

Lemma refresh_items_refreshed (a : App) : _refresh_items a = Returned (refreshed a).
Proof. apply refresh_items_eq. Qed.

Lemma items_match {B} (l : list str) (x y : B) :
  l <> [] -> match l with [] => x | _ :: _ => y end = y.
Proof. destruct l; [congruence | reflexivity]. Qed.

Lemma highlight_current_eq (a : App) (ln : Z) :
  items a <> [] -> getitem (line_map a) (index a) = Some ln ->
  _highlight_current a = Returned (highlighted ln a).
Proof.
  intros Hne Hget. unfold _highlight_current. simpl.
  rewrite items_match by exact Hne. rewrite Hget. reflexivity.
Qed.

Lemma copy_current_eq (h : Host) (a : App) (s : str) :
  items a <> [] -> getitem (items a) (index a) = Some s ->
  _copy_current h a =
  if clear_ok h then
    if append_ok h then Returned (copied s a) else Raised TclError (cleared a)
  else Raised TclError a.
Proof.
  intros Hne Hget. unfold _copy_current. rewrite items_match by exact Hne.
  unfold andthen, clipboard_clear, clipboard_append, update.
  destruct (clear_ok h); [|reflexivity]. simpl. rewrite Hget.
  destruct (append_ok h); reflexivity.
Qed.

Lemma update_label_eq (a : App) :
  0 <= index a < len (items a) ->
  _update_label a =
  Returned (set_label (label_of (index a + 1) (len (items a))) a).
Proof.
  intros Hi. unfold _update_label.
  replace (len (items a) =? 0) with false by (symmetry; apply Z.eqb_neq; lia).
  rewrite Z.mod_small by exact Hi. reflexivity.
Qed.

(** The clamp puts a non-negative cursor inside a non-empty sequence. *)
Lemma refreshed_in_range (a : App) :
  0 <= index a -> parse_spec (text a) <> [] ->
  let n := len (parse_spec (text a)) in
  items (refreshed a) <> [] /\
  len (items (refreshed a)) = n /\ len (line_map (refreshed a)) = n /\
  index (refreshed a) = Z.min (index a) (n - 1) /\
  0 <= index (refreshed a) < n.
Proof.
  intros Hi Hne n. pose proof (len_pos _ Hne) as Hn. fold n in Hn.
  unfold refreshed. simpl. rewrite !len_map. fold n.
  split; [destruct (parse_spec (text a)); [congruence | discriminate]|].
  repeat split; lia.
Qed.

Lemma refreshed_empty (a : App) :
  parse_spec (text a) = [] ->
  refreshed a = set_parsed [] [] (Z.min (index a) 0) a.
Proof. intros E. unfold refreshed. rewrite E. reflexivity. Qed.

(** The item and line a cursor inside the sequence selects. *)
Lemma refreshed_select (a : App) (i : Z) :
  0 <= i < len (parse_spec (text a)) ->
  exists ln s,
    getitem (parse_spec (text a)) i = Some (ln, s) /\
    getitem (line_map (refreshed a)) i = Some ln /\
    getitem (items (refreshed a)) i = Some s.
Proof.
  intros Hi. destruct (getitem_some _ _ Hi) as [[ln s] Hget].
  exists ln, s. unfold refreshed. simpl. rewrite !getitem_map, Hget. tauto.
Qed.

(** [next_item] on a non-empty sequence, whatever the clipboard does. *)
Lemma next_item_nonempty (h : Host) (a : App) :
  0 <= index a -> parse_spec (text a) <> [] ->
  let n := len (parse_spec (text a)) in
  let c := Z.min (index a) (n - 1) in
  exists ln s,
    0 <= c < n /\
    getitem (parse_spec (text a)) c = Some (ln, s) /\
    next_item h a =
    let a2 := highlighted ln (refreshed a) in
    if clear_ok h then
      if append_ok h then
        Returned (set_index ((c + 1) mod n)
                    (set_label (label_of (c + 1) n) (copied s a2)))
      else Raised TclError (cleared a2)
    else Raised TclError a2.
Proof.
  intros Hi Hne n c.
  destruct (refreshed_in_range a Hi Hne) as [Hitems [Hlen [Hlm [Hidx Hrange]]]].
  fold n in Hlen, Hlm, Hidx, Hrange. fold c in Hidx. rewrite Hidx in Hrange.
  destruct (refreshed_select a c Hrange) as [ln [s [Hsel [Hline Hitem]]]].
  exists ln, s. split; [exact Hrange|]. split; [exact Hsel|].
  rewrite <- Hidx in Hline, Hitem.
  unfold next_item, andthen at 1. rewrite refresh_items_refreshed.
  rewrite items_match by exact Hitems.
  unfold andthen at 1.
  rewrite (highlight_current_eq _ ln) by assumption.
  unfold andthen at 1.
  rewrite (copy_current_eq h _ s) by (exact Hitems || exact Hitem).
  destruct (clear_ok h); [|reflexivity].
  destruct (append_ok h); [|reflexivity].
  unfold andthen.
  assert (Hin : 0 <= index (copied s (highlighted ln (refreshed a)))
                < len (items (copied s (highlighted ln (refreshed a))))).
  { change (0 <= index (refreshed a) < len (items (refreshed a))).
    rewrite Hidx, Hlen. exact Hrange. }
  rewrite update_label_eq by exact Hin.
  change (index (copied s (highlighted ln (refreshed a))))
    with (index (refreshed a)).
  change (items (copied s (highlighted ln (refreshed a))))
    with (items (refreshed a)).
  cbv beta.
  change (Returned
            (set_index ((index (refreshed a) + 1) mod len (items (refreshed a)))
               (set_label
                  (label_of (index (refreshed a) + 1) (len (items (refreshed a))))
                  (copied s (highlighted ln (refreshed a))))) =
          Returned
            (set_index ((c + 1) mod n)
               (set_label (label_of (c + 1) n)
                  (copied s (highlighted ln (refreshed a)))))).
  rewrite Hidx, Hlen. reflexivity.
Qed.

(** [prev_item] on a non-empty sequence, whatever the clipboard does. *)
Lemma prev_item_nonempty (h : Host) (a : App) :
  0 <= index a -> parse_spec (text a) <> [] ->
  let n := len (parse_spec (text a)) in
  let c := Z.min (index a) (n - 1) in
  let c' := (c - 1) mod n in
  exists ln s,
    0 <= c' < n /\
    getitem (parse_spec (text a)) c' = Some (ln, s) /\
    prev_item h a =
    let a2 := highlighted ln (set_index c' (refreshed a)) in
    if clear_ok h then
      if append_ok h then
        Returned (set_label (label_of (c' + 1) n) (copied s a2))
      else Raised TclError (cleared a2)
    else Raised TclError a2.
Proof.
  intros Hi Hne n c c'.
  destruct (refreshed_in_range a Hi Hne) as [Hitems [Hlen [Hlm [Hidx Hrange]]]].
  fold n in Hlen, Hlm, Hidx, Hrange. fold c in Hidx.
  assert (Hc' : 0 <= c' < n) by (apply Z.mod_pos_bound; lia).
  destruct (refreshed_select a c' Hc') as [ln [s [Hsel [Hline Hitem]]]].
  exists ln, s. split; [exact Hc'|]. split; [exact Hsel|].
  unfold prev_item, andthen at 1. rewrite refresh_items_refreshed.
  rewrite items_match by exact Hitems.
  unfold andthen at 1. rewrite Hidx, Hlen. fold c'.
  unfold andthen at 1.
  rewrite (highlight_current_eq _ ln) by (exact Hitems || exact Hline).
  unfold andthen at 1.
  rewrite (copy_current_eq h _ s) by (exact Hitems || exact Hitem).
  destruct (clear_ok h); [|reflexivity].
  destruct (append_ok h); [|reflexivity].
  assert (Hin : 0 <= index (copied s (highlighted ln (set_index c' (refreshed a))))
                < len (items (copied s (highlighted ln (set_index c' (refreshed a)))))).
  { change (0 <= c' < len (items (refreshed a))). rewrite Hlen. exact Hc'. }
  rewrite update_label_eq by exact Hin.
  change (index (copied s (highlighted ln (set_index c' (refreshed a)))))
    with c'.
  change (items (copied s (highlighted ln (set_index c' (refreshed a)))))
    with (items (refreshed a)).
  rewrite Hlen. reflexivity.
Qed.

(** Either call on an empty sequence. *)
Lemma next_item_empty (h : Host) (a : App) :
  parse_spec (text a) = [] ->
  next_item h a = Returned (set_parsed [] [] (Z.min (index a) 0) a).
Proof.
  intros E. unfold next_item, andthen. rewrite refresh_items_refreshed.
  rewrite refreshed_empty by exact E. reflexivity.
Qed.

Lemma prev_item_empty (h : Host) (a : App) :
  parse_spec (text a) = [] ->
  prev_item h a = Returned (set_parsed [] [] (Z.min (index a) 0) a).
Proof.
  intros E. unfold prev_item, andthen. rewrite refresh_items_refreshed.
  rewrite refreshed_empty by exact E. reflexivity.
Qed.

Lemma all_blank_parse (t : str) : all_blank t = true -> parse_spec t = [].
Proof.
  unfold all_blank, parse_spec. generalize 1. generalize (splitlines t).
  induction l as [|ln l IH]; intros s H; simpl in *; [reflexivity|].
  apply andb_true_iff in H. destruct H as [Hb Hl].
  destruct (truthy (strip ln)); [discriminate|]. now apply IH.
Qed.

(** ** Arithmetic of the cursor *)

Lemma retreat_undoes_advance (c n : Z) :
  0 <= c < n -> ((c + 1) mod n - 1) mod n = c.
Proof.
  intros H. destruct (Z.eq_dec (c + 1) n) as [E|E].
  - rewrite E, Z_mod_same_full.
    replace (0 - 1) with (n - 1 + (-1) * n) by lia.
    rewrite Z.mod_add by lia. rewrite Z.mod_small; lia.
  - rewrite (Z.mod_small (c + 1)) by lia.
    replace (c + 1 - 1) with c by lia. apply Z.mod_small; lia.
Qed.

Lemma retreat_formula (c n : Z) : 0 < n -> (c - 1) mod n = (c - 1 + n) mod n.
Proof.
  intros H. replace (c - 1 + n) with (c - 1 + 1 * n) by lia.
  now rewrite Z.mod_add by lia.
Qed.

(** ** The cursor is never negative *)

Lemma next_item_index_nonneg (h : Host) (a : App) :
  0 <= index a -> 0 <= index (state_of (next_item h a)).
Proof.
  intros Hi. destruct (parse_spec (text a)) as [|p l] eqn:E.
  - rewrite next_item_empty by exact E. simpl. lia.
  - assert (Hne : parse_spec (text a) <> []) by (rewrite E; discriminate).
    destruct (next_item_nonempty h a Hi Hne) as [ln [s [Hc [_ ->]]]].
    pose proof (Z.mod_pos_bound
                  (Z.min (index a) (len (parse_spec (text a)) - 1) + 1)
                  (len (parse_spec (text a)))) as Hm.
    pose proof (refreshed_in_range a Hi Hne) as [_ [_ [_ [Hidx Hr]]]].
    cbv zeta. destruct (clear_ok h); [destruct (append_ok h)|]; simpl.
    + apply Hm. lia.
    + simpl in Hr. exact (proj1 Hr).
    + simpl in Hr. exact (proj1 Hr).
Qed.

Lemma prev_item_index_nonneg (h : Host) (a : App) :
  0 <= index a -> 0 <= index (state_of (prev_item h a)).
Proof.
  intros Hi. destruct (parse_spec (text a)) as [|p l] eqn:E.
  - rewrite prev_item_empty by exact E. simpl. lia.
  - assert (Hne : parse_spec (text a) <> []) by (rewrite E; discriminate).
    destruct (prev_item_nonempty h a Hi Hne) as [ln [s [Hc [_ ->]]]].
    cbv zeta. destruct (clear_ok h); [destruct (append_ok h)|]; simpl;
      exact (proj1 Hc).
Qed.

Lemma reachable_index_nonneg (a : App) : reachable a -> 0 <= index a.
Proof.
  induction 1; simpl.
  - lia.
  - exact IHreachable.
  - now apply next_item_index_nonneg.
  - now apply prev_item_index_nonneg.
Qed.

(** ** Advance *)

(** C3. [next_item] from a state whose cursor is not negative, with [seq]
    the sequence parsed from the current text, [n] its length and [c] the
    clamped cursor.  If [seq] is empty the call returns without touching the
    text, label, tag, clipboard or effect log, whatever the clipboard would
    do (the clamp leaves the cursor at 0).  Otherwise, with a working clipboard, it returns having stored the
    parsed sequence, tagged the line of item [c], put item [c] on the
    clipboard and set the label to [c + 1] of [n], in this order, and the
    cursor is [(c + 1) mod n]; when the copy raises instead, the cursor is
    still [c], so the increment comes last.  On the text of the worked
    example with the cursor at 0, three calls copy [a], [b], [c] with labels
    1 / 3, 2 / 3, 3 / 3 and cursors 1, 2, 0. *)
Theorem next_item_advances (a : App) (Hi : 0 <= index a) :
  let seq := parse_spec (text a) in
  let n := len seq in
  let c := Z.min (index a) (n - 1) in
  (seq = [] ->
   forall h, exists a',
     next_item h a = Returned a' /\
     text a' = text a /\ label a' = label a /\ tagged a' = tagged a /\
     clipboard a' = clipboard a /\ log a' = log a /\ index a' = 0) /\
  (seq <> [] ->
   exists ln s a',
     0 <= c < n /\ getitem seq c = Some (ln, s) /\
     next_item working a = Returned a' /\
     text a' = text a /\ items a' = map snd seq /\ line_map a' = map fst seq /\
     tagged a' = [ln] /\ clipboard a' = s /\ label a' = label_of (c + 1) n /\
     index a' = (c + 1) mod n /\
     log a' = log a ++ [TagRemove; TagAdd ln; See ln; ClipboardClear;
                        ClipboardAppend s; Update;
                        LabelConfigure (label_of (c + 1) n)] /\
     forall h, returned (next_item h a) = false ->
               index (state_of (next_item h a)) = c) /\
  (text a = abc_text -> index a = 0 ->
   exists a1 a2 a3,
     next_item working a = Returned a1 /\
     next_item working a1 = Returned a2 /\
     next_item working a2 = Returned a3 /\
     clipboard a1 = lit "a" /\ label a1 = lit "1 / 3" /\ index a1 = 1 /\
     clipboard a2 = lit "b" /\ label a2 = lit "2 / 3" /\ index a2 = 2 /\
     clipboard a3 = lit "c" /\ label a3 = lit "3 / 3" /\ index a3 = 0).
Proof.
  intros seq n c. split; [|split].
  - intros E h. rewrite next_item_empty by exact E.
    eexists. split; [reflexivity|]. simpl.
    repeat (split; [reflexivity|]). lia.
  - intros Hne.
    destruct (next_item_nonempty working a Hi Hne) as [ln [s [Hc [Hsel Hw]]]].
    fold seq n c in Hc, Hsel, Hw. simpl in Hw.
    exists ln, s. eexists. split; [exact Hc|]. split; [exact Hsel|].
    split; [exact Hw|]. simpl.
    repeat (split; [reflexivity|]).
    split; [now rewrite <- !app_assoc|].
    intros h Hraised.
    destruct (next_item_nonempty h a Hi Hne) as [ln' [s' [_ [_ Hh]]]].
    pose proof (refreshed_in_range a Hi Hne) as [_ [_ [_ [Hidx _]]]].
    rewrite Hh in *. cbv zeta in *.
    destruct (clear_ok h); [destruct (append_ok h)|];
      simpl in *; try discriminate; exact Hidx.
  - intros Ht H0. destruct a as [t its lm i lb tg cb lg]. simpl in Ht, H0.
    subst t i. do 3 eexists.
    split; [vm_compute; reflexivity|].
    split; [vm_compute; reflexivity|].
    split; [vm_compute; reflexivity|].
    repeat split.
Qed.

Lemma next_item_advances_witness :
  0 <= index (set_text abc_text init) /\
  exists a1, next_item working (set_text abc_text init) = Returned a1
             /\ clipboard a1 = lit "a" /\ index a1 = 1.
Proof.
  assert (H0 : 0 <= index (set_text abc_text init)) by (simpl; lia).
  split; [exact H0|].
  destruct (next_item_advances (set_text abc_text init) H0) as [_ [_ Hex]].
  destruct (Hex eq_refl eq_refl) as [a1 [a2 [a3 H]]].
  exists a1. tauto.
Defined.

(** ** Retreat *)

(** C4. [prev_item] from a state whose cursor is not negative, with [seq],
    [n] and [c] as for advance and [c' = (c - 1 + n) mod n].  If [seq] is
    empty the call returns without touching the text, label, tag, clipboard
    or effect log (the clamp leaves the cursor at 0).  Otherwise, with a
    working clipboard, it returns having
    tagged the line of item [c'], put item [c'] on the clipboard and set the
    label to [c' + 1] of [n], and the cursor is [c'], the item shown; the
    cursor is [c'] also when the copy raises, so the move comes first. *)
Theorem prev_item_retreats (a : App) (Hi : 0 <= index a) :
  let seq := parse_spec (text a) in
  let n := len seq in
  let c := Z.min (index a) (n - 1) in
  let c' := (c - 1 + n) mod n in
  (seq = [] ->
   forall h, exists a',
     prev_item h a = Returned a' /\
     text a' = text a /\ label a' = label a /\ tagged a' = tagged a /\
     clipboard a' = clipboard a /\ log a' = log a /\ index a' = 0) /\
  (seq <> [] ->
   exists ln s a',
     0 <= c' < n /\ getitem seq c' = Some (ln, s) /\
     prev_item working a = Returned a' /\
     text a' = text a /\ items a' = map snd seq /\ line_map a' = map fst seq /\
     tagged a' = [ln] /\ clipboard a' = s /\ label a' = label_of (c' + 1) n /\
     index a' = c' /\
     log a' = log a ++ [TagRemove; TagAdd ln; See ln; ClipboardClear;
                        ClipboardAppend s; Update;
                        LabelConfigure (label_of (c' + 1) n)] /\
     forall h, index (state_of (prev_item h a)) = c').
Proof.
  intros seq n c c'. split.
  - intros E h. rewrite prev_item_empty by exact E.
    eexists. split; [reflexivity|]. simpl.
    repeat (split; [reflexivity|]). lia.
  - intros Hne.
    assert (Hc : c' = (c - 1) mod n).
    { symmetry. apply retreat_formula. now apply len_pos. }
    destruct (prev_item_nonempty working a Hi Hne) as [ln [s [Hr [Hsel Hw]]]].
    fold seq n c in Hr, Hsel, Hw. rewrite <- Hc in Hr, Hsel, Hw. simpl in Hw.
    exists ln, s. eexists. split; [exact Hr|]. split; [exact Hsel|].
    split; [exact Hw|]. simpl.
    repeat (split; [reflexivity|]).
    split; [now rewrite <- !app_assoc|].
    intros h.
    destruct (prev_item_nonempty h a Hi Hne) as [ln' [s' [_ [_ Hh]]]].
    fold seq n c in Hh. rewrite <- Hc in Hh. rewrite Hh. cbv zeta.
    destruct (clear_ok h); [destruct (append_ok h)|]; reflexivity.
Qed.

Lemma prev_item_retreats_witness :
  0 <= index (set_text abc_text init) /\
  exists a', prev_item working (set_text abc_text init) = Returned a' /\
             clipboard a' = lit "c" /\ index a' = 2.
Proof.
  assert (H0 : 0 <= index (set_text abc_text init)) by (simpl; lia).
  split; [exact H0|].
  assert (H1 : parse_spec (text (set_text abc_text init)) <> [])
    by (vm_compute; discriminate).
  destruct (prev_item_retreats (set_text abc_text init) H0) as [_ Hne].
  destruct (Hne H1)
    as [ln [s [a' [_ [Hsel [Hw [_ [_ [_ [_ [Hcb [_ [Hidx _]]]]]]]]]]]]].
  exists a'. split; [exact Hw|].
  vm_compute in Hsel. injection Hsel as Eln Es.
  split; [rewrite Hcb; symmetry; exact Es|]. rewrite Hidx. reflexivity.
Defined.

(** ** Advance, then retreat *)

(** C7. From a state whose cursor is not negative and whose text has a
    non-blank line, [next_item] and then [prev_item] on the same text, with
    a working clipboard: both return, the retreat tags the same line, leaves
    the same item on the clipboard and shows the same label as the advance
    did, and the cursor ends on [c], the clamped cursor at which the advance
    made its copy.  The effect log shows each call doing it: the advance, and
    then the retreat, remove the tag, tag the line of item [c], empty the
    clipboard, put item [c] on it and set the label to [c + 1] of [n]. *)
Theorem advance_then_retreat (a : App)
  (Hi : 0 <= index a) (Hne : parse_spec (text a) <> []) :
  let seq := parse_spec (text a) in
  let n := len seq in
  let c := Z.min (index a) (n - 1) in
  exists ln s a1 a2,
    getitem seq c = Some (ln, s) /\
    next_item working a = Returned a1 /\
    prev_item working a1 = Returned a2 /\
    text a1 = text a /\
    tagged a1 = [ln] /\ clipboard a1 = s /\ label a1 = label_of (c + 1) n /\
    tagged a2 = tagged a1 /\ clipboard a2 = clipboard a1 /\
    label a2 = label a1 /\
    index a2 = c /\ getitem (items a2) (index a2) = Some (clipboard a2) /\
    log a1 = log a ++ [TagRemove; TagAdd ln; See ln; ClipboardClear;
                       ClipboardAppend s; Update;
                       LabelConfigure (label_of (c + 1) n)] /\
    log a2 = log a1 ++ [TagRemove; TagAdd ln; See ln; ClipboardClear;
                        ClipboardAppend s; Update;
                        LabelConfigure (label_of (c + 1) n)].
Proof.
  intros seq n c.
  destruct (next_item_nonempty working a Hi Hne) as [ln [s [Hc [Hsel Hw]]]].
  fold seq n c in Hc, Hsel, Hw. simpl in Hw.
  match type of Hw with _ = Returned ?x => set (a1 := x) in * end.
  assert (Ht : text a1 = text a) by reflexivity.
  assert (Hi1 : 0 <= index a1).
  { change (0 <= (c + 1) mod n). apply Z.mod_pos_bound. lia. }
  assert (Hne1 : parse_spec (text a1) <> []) by (rewrite Ht; exact Hne).
  destruct (prev_item_nonempty working a1 Hi1 Hne1) as [ln' [s' [Hc' [Hsel' Hw']]]].
  rewrite Ht in Hc', Hsel', Hw'. fold seq n in Hc', Hsel', Hw'.
  change (index a1) with ((c + 1) mod n) in Hc', Hsel', Hw'.
  assert (Hback : (Z.min ((c + 1) mod n) (n - 1) - 1) mod n = c).
  { pose proof (Z.mod_pos_bound (c + 1) n) as Hm.
    rewrite Z.min_l by lia. now apply retreat_undoes_advance. }
  rewrite Hback in Hc', Hsel', Hw'.
  rewrite Hsel in Hsel'. inversion Hsel'; subst ln' s'.
  simpl in Hw'.
  exists ln, s, a1. eexists.
  split; [exact Hsel|]. split; [exact Hw|]. split; [exact Hw'|].
  simpl. repeat (split; [reflexivity|]).
  split; [|split; now rewrite <- !app_assoc].
  destruct (refreshed_select a c Hc) as [ln2 [s2 [Hs2 [_ Hit]]]].
  fold seq in Hs2. rewrite Hsel in Hs2. inversion Hs2; subst ln2 s2.
  exact Hit.
Qed.

Lemma advance_then_retreat_witness :
  0 <= index (set_text abc_text init) /\
  parse_spec (text (set_text abc_text init)) <> [] /\
  exists a1 a2,
    next_item working (set_text abc_text init) = Returned a1 /\
    prev_item working a1 = Returned a2 /\
    clipboard a2 = clipboard a1 /\ index a2 = 0.
Proof.
  assert (H0 : 0 <= index (set_text abc_text init)) by (simpl; lia).
  assert (H1 : parse_spec (text (set_text abc_text init)) <> [])
    by (vm_compute; discriminate).
  split; [exact H0|]. split; [exact H1|].
  destruct (advance_then_retreat (set_text abc_text init) H0 H1)
    as [ln [s [a1 [a2 [_ [Hn [Hp [_ [_ [_ [_ [_ [Hcb [_ [Hidx _]]]]]]]]]]]]]]].
  exists a1, a2. repeat split; assumption.
Defined.

(** ** Navigation on a text without items *)

(** C10. When every line of the text is blank and the cursor is not
    negative, [next_item] and [prev_item] return with the cursor at 0 and
    with the text, the label, the tagged lines, the clipboard and the effect
    log as they were, whatever the clipboard would do. *)
Theorem navigation_on_blank_text (a : App) (h : Host)
  (Hi : 0 <= index a) (Hblank : all_blank (text a) = true) :
  (exists a', next_item h a = Returned a' /\ index a' = 0 /\
              text a' = text a /\ label a' = label a /\
              tagged a' = tagged a /\ clipboard a' = clipboard a /\
              log a' = log a) /\
  (exists a', prev_item h a = Returned a' /\ index a' = 0 /\
              text a' = text a /\ label a' = label a /\
              tagged a' = tagged a /\ clipboard a' = clipboard a /\
              log a' = log a).
Proof.
  pose proof (all_blank_parse _ Hblank) as E.
  rewrite next_item_empty, prev_item_empty by exact E.
  split; eexists; (split; [reflexivity|]); simpl;
    (split; [lia|]); tauto.
Qed.

Lemma navigation_on_blank_text_witness :
  let a := mkApp [32%N; LF; 9%N] [lit "x"; lit "y"] [1; 2] 1 (lit "2 / 2")
                 [2] (lit "y") [] in
  0 <= index a /\ all_blank (text a) = true /\
  exists a', next_item working a = Returned a' /\ index a' = 0 /\
             label a' = lit "2 / 2".
Proof.
  intros a.
  assert (H0 : 0 <= index a) by (simpl; lia).
  assert (H1 : all_blank (text a) = true) by reflexivity.
  split; [exact H0|]. split; [exact H1|].
  destruct (navigation_on_blank_text a working H0 H1)
    as [[a' [Hn [Hidx [_ [Hlb _]]]]] _].
  exists a'. repeat split; assumption.
Defined.

(** ** The cursor after a rebuild *)

(** C6. In every state the application can reach, [_refresh_items] returns,
    and when the rebuilt sequence is not empty: the cursor is an index of
    it, unchanged if it already was one and the last index otherwise;
    [line_map] has the length of [items]; the reads of [line_map] and
    [items] at the cursor, which advance makes, and at the cursor moved
    back by one with wrap-around, which retreat makes, are inside the
    lists.  Neither [next_item] nor [prev_item] raises [IndexError]. *)
Theorem cursor_valid_after_rebuild (a : App) (h : Host) (Hr : reachable a) :
  let a1 := state_of (_refresh_items a) in
  let n := len (items a1) in
  returned (_refresh_items a) = true /\
  (items a1 <> [] ->
   0 <= index a1 < n /\ len (line_map a1) = n /\
   (index a < n -> index a1 = index a) /\
   (n <= index a -> index a1 = n - 1) /\
   getitem (line_map a1) (index a1) <> None /\
   getitem (items a1) (index a1) <> None /\
   let i := (index a1 - 1) mod n in
   0 <= i < n /\
   getitem (line_map a1) i <> None /\ getitem (items a1) i <> None) /\
  (forall st, next_item h a <> Raised IndexError st) /\
  (forall st, prev_item h a <> Raised IndexError st).
Proof.
  pose proof (reachable_index_nonneg a Hr) as Hi.
  rewrite refresh_items_refreshed. simpl state_of. intros a1 n.
  split; [reflexivity|].
  destruct (parse_spec (text a)) as [|p l] eqn:E.
  - split; [|split].
    + intros Hne. exfalso. apply Hne. unfold a1, refreshed. now rewrite E.
    + intros st. rewrite next_item_empty by exact E. discriminate.
    + intros st. rewrite prev_item_empty by exact E. discriminate.
  - assert (Hne : parse_spec (text a) <> []) by (rewrite E; discriminate).
    clear E. split; [|split].
    + intros _.
      destruct (refreshed_in_range a Hi Hne) as [_ [Hlen [Hlm [Hidx Hrange]]]].
      fold a1 in Hlen, Hlm, Hidx, Hrange. fold n in Hlen.
      rewrite <- Hlen in Hlm, Hidx, Hrange.
      assert (Hi' : 0 <= (index a1 - 1) mod n < n)
        by (apply Z.mod_pos_bound; lia).
      assert (Hsome : forall i, 0 <= i < n ->
                getitem (line_map a1) i <> None /\
                getitem (items a1) i <> None).
      { intros i Hin. rewrite Hlen in Hin.
        destruct (refreshed_select a i Hin) as [ln [s [_ [H1 H2]]]].
        fold a1 in H1, H2. rewrite H1, H2. split; discriminate. }
      split; [exact Hrange|]. split; [exact Hlm|].
      split; [lia|]. split; [lia|].
      split; [apply Hsome; exact Hrange|].
      split; [apply Hsome; exact Hrange|].
      split; [exact Hi'|]. apply Hsome; exact Hi'.
    + intros st.
      destruct (next_item_nonempty h a Hi Hne) as [ln [s [_ [_ ->]]]].
      cbv zeta. destruct (clear_ok h); [destruct (append_ok h)|];
        discriminate.
    + intros st.
      destruct (prev_item_nonempty h a Hi Hne) as [ln [s [_ [_ ->]]]].
      cbv zeta. destruct (clear_ok h); [destruct (append_ok h)|];
        discriminate.
Qed.

Lemma cursor_valid_after_rebuild_witness :
  reachable shrunk /\ index shrunk = 2 /\
  index (state_of (_refresh_items shrunk)) = 0 /\
  forall st, next_item working shrunk <> Raised IndexError st.
Proof.
  assert (Hr : reachable shrunk).
  { unfold shrunk. apply reach_edit, reach_prev, reach_edit, reach_init. }
  split; [exact Hr|]. split; [reflexivity|]. split; [reflexivity|].
  exact (proj1 (proj2 (proj2
           (cursor_valid_after_rebuild shrunk working Hr)))).
Defined.

(** ** A clipboard that raises *)

(** C2, as the code has it.  When the sequence is not empty, the cursor is
    not negative and one of the two clipboard operations raises, the
    exception leaves [next_item] and [prev_item]: neither returns.  The line
    of the item at the cursor is tagged by then; the label is as it was and
    no label call is logged; after [next_item] the cursor is the clamped
    cursor [c], not moved on; after [prev_item] it is [(c - 1) mod n],
    already moved back. *)
Theorem clipboard_failure_propagates (a : App) (h : Host)
  (Hi : 0 <= index a) (Hne : parse_spec (text a) <> [])
  (Hfail : clear_ok h && append_ok h = false) :
  let seq := parse_spec (text a) in
  let n := len seq in
  let c := Z.min (index a) (n - 1) in
  let c' := (c - 1) mod n in
  let tail := if clear_ok h then [ClipboardClear] else [] in
  (exists ln s st,
     getitem seq c = Some (ln, s) /\
     next_item h a = Raised TclError st /\
     tagged st = [ln] /\ index st = c /\ label st = label a /\
     log st = log a ++ [TagRemove; TagAdd ln; See ln] ++ tail) /\
  (exists ln s st,
     getitem seq c' = Some (ln, s) /\
     prev_item h a = Raised TclError st /\
     tagged st = [ln] /\ index st = c' /\ label st = label a /\
     log st = log a ++ [TagRemove; TagAdd ln; See ln] ++ tail).
Proof.
  intros seq n c c' tail.
  pose proof (refreshed_in_range a Hi Hne) as [_ [_ [_ [Hidx _]]]].
  fold seq n c in Hidx.
  split.
  - destruct (next_item_nonempty h a Hi Hne) as [ln [s [_ [Hsel Hw]]]].
    fold seq n c in Hsel, Hw. exists ln, s. unfold tail.
    cbv zeta in Hw. destruct (clear_ok h); [destruct (append_ok h)|];
      try discriminate; eexists; (split; [exact Hsel|]);
      (split; [exact Hw|]); simpl; (split; [reflexivity|]);
      (split; [exact Hidx|]); (split; [reflexivity|]);
      now rewrite <- !app_assoc.
  - destruct (prev_item_nonempty h a Hi Hne) as [ln [s [_ [Hsel Hw]]]].
    fold seq n c c' in Hsel, Hw. exists ln, s. unfold tail.
    cbv zeta in Hw. destruct (clear_ok h); [destruct (append_ok h)|];
      try discriminate; eexists; (split; [exact Hsel|]);
      (split; [exact Hw|]); simpl; (split; [reflexivity|]);
      (split; [reflexivity|]); (split; [reflexivity|]);
      now rewrite <- !app_assoc.
Qed.

Lemma clipboard_failure_propagates_witness :
  0 <= index two_lines /\ parse_spec (text two_lines) <> [] /\
  clear_ok read_only && append_ok read_only = false /\
  exists st, next_item read_only two_lines = Raised TclError st /\
             tagged st = [1] /\ index st = 0 /\ label st = lit "0 / 0".
Proof.
  assert (H0 : 0 <= index two_lines) by (simpl; lia).
  assert (H1 : parse_spec (text two_lines) <> [])
    by (vm_compute; discriminate).
  assert (H2 : clear_ok read_only && append_ok read_only = false)
    by reflexivity.
  split; [exact H0|]. split; [exact H1|]. split; [exact H2|].
  destruct (clipboard_failure_propagates two_lines read_only H0 H1 H2)
    as [[ln [s [st [Hsel [Hw [Htag [Hidx [Hlb _]]]]]]]] _].
  exists st. vm_compute in Hsel. injection Hsel as Eln Es.
  split; [exact Hw|]. split; [rewrite Htag, <- Eln; reflexivity|].
  split; [exact Hidx|]. exact Hlb.
Defined.

(** C2 does not hold as the design words it: with two items, the cursor at 0 and a clipboard
    that cannot be emptied, no call of [next_item] returns with the cursor
    moved to 1 and the label showing position 1 of 2, and [prev_item] does
    not return either. *)
Lemma clipboard_failure_not_recovered :
  ~ (exists a', next_item locked two_lines = Returned a' /\
                index a' = 1 /\ label a' = lit "1 / 2") /\
  returned (next_item locked two_lines) = false /\
  index (state_of (next_item locked two_lines)) = 0 /\
  label (state_of (next_item locked two_lines)) = lit "0 / 0" /\
  returned (prev_item locked two_lines) = false /\
  label (state_of (prev_item locked two_lines)) = lit "0 / 0".
Proof.
  split; [|repeat split].
  intros [a' [H _]]. vm_compute in H. discriminate.
Qed.

(** ** The label when the last item is removed *)

(** C1, on the code: after one line was copied (label 1 / 1) and the text
    box emptied, [next_item] and [prev_item] return without a clipboard or
    tag call, but the label still reads 1 / 1, not 0 / 0; [_update_label]
    would have written 0 / 0 had it been called. *)
Theorem label_stale_after_clearing :
  len (items emptied) = 1 /\ label emptied = lit "1 / 1" /\
  (exists a', next_item working emptied = Returned a' /\
              items a' = [] /\ log a' = log emptied /\
              clipboard a' = clipboard emptied /\ tagged a' = tagged emptied /\
              label a' = lit "1 / 1" /\ label a' <> lit "0 / 0" /\
              label (state_of (_update_label a')) = lit "0 / 0") /\
  (exists a', prev_item working emptied = Returned a' /\
              items a' = [] /\ log a' = log emptied /\
              label a' = lit "1 / 1" /\ label a' <> lit "0 / 0").
Proof.
  split; [reflexivity|]. split; [reflexivity|].
  split; eexists; (split; [vm_compute; reflexivity|]);
    repeat split; discriminate.
Qed.

End NavFacts.

(** ** Registration of the global hot-keys *)

Module HooksFacts.
Import Hooks.

(** The imports never select the [pynput] backend. *)
Lemma global_hook_backend_values (keyboard_found pynput_found : bool) :
  global_hook_backend keyboard_found pynput_found =
  if keyboard_found then BackendKeyboard else BackendNone.
Proof. now destruct keyboard_found, pynput_found. Qed.

(** The loop over the bindings never raises: each binding adds its hot-key
    or its error box, whatever the others do. *)
Lemma for_each_register_one (env : Env) (l : list (str * str)) (s : Hooks) :
  for_each (register_one env) l s =
  Returned (mkHooks (hotkeys s) (local_bindings s)
              (registered s ++ flat_map (entry_for env) l)
              (dialogs s ++ flat_map (dialogs_for env) l)
              (listeners s)).
Proof.
  revert s. induction l as [|[action combo] l IH]; intros s.
  - simpl. rewrite !app_nil_r. now destruct s.
  - simpl for_each. unfold andthen, register_one, add_hotkey.
    simpl flat_map. unfold entry_for at 1, dialogs_for at 1. simpl fst. simpl snd.
    destruct (rejects (kb env) combo) as [exc|].
    + unfold showerror. rewrite IH. simpl.
      unfold could_not_bind. now rewrite <- !app_assoc.
    + rewrite IH. simpl. now rewrite <- !app_assoc.
Qed.

Lemma reset_keyboard_hotkeys_clears (env : Env) (s : Hooks) :
  can_reset (kb env) = true ->
  _reset_keyboard_hotkeys env s = Returned (set_registered [] s).
Proof.
  unfold can_reset, _reset_keyboard_hotkeys. intros H.
  destruct (has_clear_all_hotkeys (kb env)); [reflexivity|].
  destruct (has_remove_all_hotkeys (kb env)); [reflexivity|].
  destruct (has_unhook_all_hotkeys (kb env)); [reflexivity|discriminate].
Qed.

(** With the [keyboard] backend, the state registration leaves. *)
Lemma register_global_hooks_keyboard (env : Env) (s : Hooks) :
  backend env = BackendKeyboard -> can_reset (kb env) = true ->
  state_of (_register_global_hooks env s) =
  mkHooks (hotkeys s) (local_bindings s)
    (flat_map (entry_for env) (hotkeys s) ++ paste_entry env)
    (dialogs s ++ flat_map (dialogs_for env) (hotkeys s))
    (listeners s).
Proof.
  intros Hb Hreset. unfold _register_global_hooks. rewrite Hb.
  unfold andthen. rewrite reset_keyboard_hotkeys_clears by exact Hreset.
  rewrite for_each_register_one. simpl.
  unfold add_hotkey, paste_entry.
  destruct (rejects (kb env) (lit "ctrl+v")); simpl;
    [now rewrite app_nil_r | reflexivity].
Qed.

(** Registration leaves the bindings of the window alone, with any backend
    and whether or not it raises. *)
Lemma register_global_hooks_local (env : Env) (s : Hooks) :
  local_bindings (state_of (_register_global_hooks env s)) = local_bindings s.
Proof.
  unfold _register_global_hooks. destruct (backend env).
  - unfold andthen, _reset_keyboard_hotkeys.
    assert (H : forall s0, local_bindings s0 = local_bindings s ->
              local_bindings
                (state_of
                   (match for_each (register_one env) (hotkeys s0) s0 with
                    | Returned st' => add_hotkey env (lit "ctrl+v") (TkSafe ActNext) st'
                    | Raised e st' => Raised e st'
                    end)) = local_bindings s).
    { intros s0 H0. rewrite for_each_register_one. unfold add_hotkey.
      destruct (rejects (kb env) (lit "ctrl+v")); exact H0. }
    destruct (has_clear_all_hotkeys (kb env)); [now apply H|].
    destruct (has_remove_all_hotkeys (kb env)); [now apply H|].
    destruct (has_unhook_all_hotkeys (kb env)); now apply H.
  - destruct (pynput_found env); reflexivity.
  - reflexivity.
Qed.






End HooksFacts.

(** ** Cycling through the items *)

Module CycleFacts.
Import Nav NavFacts Cycle.

Lemma times_S {St} (k : nat) (m : M St) (st : St) :
  times (S k) m st =
  match m st with
  | Returned st' => times k m st'
  | Raised e st' => Raised e st'
  end.
Proof. reflexivity. Qed.

Lemma advance_undoes_retreat (c n : Z) :
  0 <= c < n -> ((c - 1) mod n + 1) mod n = c.
Proof.
  intros H. rewrite Zplus_mod_idemp_l.
  replace (c - 1 + 1) with c by lia. apply Z.mod_small; lia.
Qed.

(** The [k+1]-th advance in a row, on an unchanged text. *)
Lemma next_item_times (k : nat) (a : App) :
  0 <= index a -> parse_spec (text a) <> [] ->
  let seq := parse_spec (text a) in
  let n := len seq in
  let c := Z.min (index a) (n - 1) in
  let shown := (c + Z.of_nat k) mod n in
  exists ln s a',
    getitem seq shown = Some (ln, s) /\
    times (S k) (next_item working) a = Returned a' /\
    text a' = text a /\ tagged a' = [ln] /\ clipboard a' = s /\
    label a' = label_of (shown + 1) n /\
    index a' = (c + Z.of_nat k + 1) mod n.
Proof.
  revert a. induction k as [|k IH]; intros a Hi Hne seq n c shown.
  - destruct (next_item_nonempty working a Hi Hne) as [ln [s [Hc [Hsel Hw]]]].
    fold seq n c in Hc, Hsel, Hw. simpl in Hw.
    assert (Es : shown = c).
    { unfold shown. simpl. rewrite Z.add_0_r. apply Z.mod_small; lia. }
    rewrite Es. exists ln, s. eexists. split; [exact Hsel|].
    split; [rewrite times_S, Hw; reflexivity|]. simpl.
    repeat (split; [reflexivity|]). now rewrite Z.add_0_r.
  - destruct (next_item_nonempty working a Hi Hne) as [ln [s [Hc [Hsel Hw]]]].
    fold seq n c in Hc, Hsel, Hw. simpl in Hw.
    match type of Hw with _ = Returned ?x => set (a1 := x) in * end.
    assert (Hm : 0 <= (c + 1) mod n < n) by (apply Z.mod_pos_bound; lia).
    assert (Hi1 : 0 <= index a1) by (change (0 <= (c + 1) mod n); lia).
    assert (Hne1 : parse_spec (text a1) <> []) by exact Hne.
    destruct (IH a1 Hi1 Hne1) as [ln' [s' [a' [Hsel' [Hrun [Ht [Htg [Hcb [Hlb Hidx]]]]]]]]].
    change (text a1) with (text a) in Hsel', Ht, Hlb, Hidx.
    change (index a1) with ((c + 1) mod n) in Hsel', Hlb, Hidx.
    fold seq n in Hsel', Hlb, Hidx.
    rewrite (Z.min_l ((c + 1) mod n) (n - 1)) in Hsel', Hlb, Hidx by lia.
    assert (E1 : ((c + 1) mod n + Z.of_nat k) mod n = shown).
    { unfold shown. rewrite Zplus_mod_idemp_l. f_equal. lia. }
    assert (E2 : ((c + 1) mod n + Z.of_nat k + 1) mod n
                 = (c + Z.of_nat (S k) + 1) mod n).
    { replace ((c + 1) mod n + Z.of_nat k + 1)
        with ((c + 1) mod n + (Z.of_nat k + 1)) by lia.
      rewrite Zplus_mod_idemp_l. f_equal. lia. }
    rewrite E1 in Hsel', Hlb. rewrite E2 in Hidx.
    exists ln', s', a'. split; [exact Hsel'|].
    split; [rewrite times_S, Hw; exact Hrun|]. tauto.
Qed.

(** The [k+1]-th retreat in a row, on an unchanged text. *)
Lemma prev_item_times (k : nat) (a : App) :
  0 <= index a -> parse_spec (text a) <> [] ->
  let seq := parse_spec (text a) in
  let n := len seq in
  let c := Z.min (index a) (n - 1) in
  let shown := (c - (Z.of_nat k + 1)) mod n in
  exists ln s a',
    getitem seq shown = Some (ln, s) /\
    times (S k) (prev_item working) a = Returned a' /\
    text a' = text a /\ tagged a' = [ln] /\ clipboard a' = s /\
    label a' = label_of (shown + 1) n /\
    index a' = shown.
Proof.
  revert a. induction k as [|k IH]; intros a Hi Hne seq n c shown.
  - destruct (prev_item_nonempty working a Hi Hne) as [ln [s [Hc [Hsel Hw]]]].
    fold seq n c in Hc, Hsel, Hw. simpl in Hw.
    assert (Es : shown = (c - 1) mod n) by reflexivity.
    rewrite Es. exists ln, s. eexists. split; [exact Hsel|].
    split; [rewrite times_S, Hw; reflexivity|]. simpl.
    repeat (split; [reflexivity|]). reflexivity.
  - destruct (prev_item_nonempty working a Hi Hne) as [ln [s [Hc [Hsel Hw]]]].
    fold seq n c in Hc, Hsel, Hw. simpl in Hw.
    match type of Hw with _ = Returned ?x => set (a1 := x) in * end.
    assert (Hi1 : 0 <= index a1) by (change (0 <= (c - 1) mod n); lia).
    assert (Hne1 : parse_spec (text a1) <> []) by exact Hne.
    destruct (IH a1 Hi1 Hne1) as [ln' [s' [a' [Hsel' [Hrun [Ht [Htg [Hcb [Hlb Hidx]]]]]]]]].
    change (text a1) with (text a) in Hsel', Ht, Hlb, Hidx.
    change (index a1) with ((c - 1) mod n) in Hsel', Hlb, Hidx.
    fold seq n in Hsel', Hlb, Hidx.
    rewrite (Z.min_l ((c - 1) mod n) (n - 1)) in Hsel', Hlb, Hidx by lia.
    assert (E1 : ((c - 1) mod n - (Z.of_nat k + 1)) mod n = shown).
    { unfold shown. rewrite Zminus_mod_idemp_l. f_equal. lia. }
    rewrite E1 in Hsel', Hlb, Hidx.
    exists ln', s', a'. split; [exact Hsel'|].
    split; [rewrite times_S, Hw; exact Hrun|]. tauto.
Qed.

(** X1. On a text with [n] items, [n] advances in a row with a working
    clipboard all return and bring the cursor back to the clamped cursor
    they started from; on the way every item of the sequence is put on the
    clipboard by one of these [n] calls. *)
Theorem advance_full_cycle (a : App)
  (Hi : 0 <= index a) (Hne : parse_spec (text a) <> []) :
  let seq := parse_spec (text a) in
  let n := len seq in
  let c := Z.min (index a) (n - 1) in
  (exists a', times (Z.to_nat n) (next_item working) a = Returned a' /\
              text a' = text a /\ index a' = c) /\
  (forall j, 0 <= j < n ->
     exists k a', (k < Z.to_nat n)%nat /\
       times (S k) (next_item working) a = Returned a' /\
       getitem (map snd seq) j = Some (clipboard a')).
Proof.
  intros seq n c. pose proof (len_pos _ Hne) as Hn. fold seq n in Hn.
  assert (Hc : 0 <= c < n) by (unfold c; lia).
  split.
  - destruct (next_item_times (Z.to_nat (n - 1)) a Hi Hne)
      as [ln [s [a' [_ [Hrun [Ht [_ [_ [_ Hidx]]]]]]]]].
    fold seq n c in Hidx.
    replace (S (Z.to_nat (n - 1))) with (Z.to_nat n) in Hrun by lia.
    exists a'. split; [exact Hrun|]. split; [exact Ht|].
    rewrite Hidx. replace (c + Z.of_nat (Z.to_nat (n - 1)) + 1) with (c + 1 * n)
      by lia.
    rewrite Z.mod_add by lia. apply Z.mod_small; lia.
  - intros j Hj. pose proof (Z.mod_pos_bound (j - c) n Hn) as Hk.
    destruct (next_item_times (Z.to_nat ((j - c) mod n)) a Hi Hne)
      as [ln [s [a' [Hsel [Hrun [_ [_ [Hcb _]]]]]]]].
    fold seq n c in Hsel.
    exists (Z.to_nat ((j - c) mod n)), a'. split; [lia|].
    split; [exact Hrun|].
    rewrite Z2Nat.id in Hsel by lia.
    rewrite Zplus_mod_idemp_r in Hsel.
    replace (c + (j - c)) with j in Hsel by lia.
    rewrite Z.mod_small in Hsel by lia.
    rewrite getitem_map, Hsel, Hcb. reflexivity.
Qed.

Lemma advance_full_cycle_witness :
  0 <= index (set_text abc_text init) /\
  parse_spec (text (set_text abc_text init)) <> [] /\
  exists a', times 3 (next_item working) (set_text abc_text init) = Returned a'
             /\ index a' = 0.
Proof.
  assert (H0 : 0 <= index (set_text abc_text init)) by (simpl; lia).
  assert (H1 : parse_spec (text (set_text abc_text init)) <> [])
    by (vm_compute; discriminate).
  split; [exact H0|]. split; [exact H1|].
  destruct (advance_full_cycle (set_text abc_text init) H0 H1)
    as [[a' [Hrun [_ Hidx]]] _].
  exists a'. split; [exact Hrun | exact Hidx].
Defined.

(** X2. On a text with [n] items, [n] retreats in a row with a working
    clipboard all return and bring the cursor back to the clamped cursor
    they started from; on the way every item of the sequence is put on the
    clipboard by one of these [n] calls. *)
Theorem retreat_full_cycle (a : App)
  (Hi : 0 <= index a) (Hne : parse_spec (text a) <> []) :
  let seq := parse_spec (text a) in
  let n := len seq in
  let c := Z.min (index a) (n - 1) in
  (exists a', times (Z.to_nat n) (prev_item working) a = Returned a' /\
              text a' = text a /\ index a' = c) /\
  (forall j, 0 <= j < n ->
     exists k a', (k < Z.to_nat n)%nat /\
       times (S k) (prev_item working) a = Returned a' /\
       getitem (map snd seq) j = Some (clipboard a')).
Proof.
  intros seq n c. pose proof (len_pos _ Hne) as Hn. fold seq n in Hn.
  assert (Hc : 0 <= c < n) by (unfold c; lia).
  split.
  - destruct (prev_item_times (Z.to_nat (n - 1)) a Hi Hne)
      as [ln [s [a' [_ [Hrun [Ht [_ [_ [_ Hidx]]]]]]]]].
    fold seq n c in Hidx.
    replace (S (Z.to_nat (n - 1))) with (Z.to_nat n) in Hrun by lia.
    exists a'. split; [exact Hrun|]. split; [exact Ht|].
    rewrite Hidx.
    replace (c - (Z.of_nat (Z.to_nat (n - 1)) + 1)) with (c + (-1) * n) by lia.
    rewrite Z.mod_add by lia. apply Z.mod_small; lia.
  - intros j Hj. pose proof (Z.mod_pos_bound (c - j - 1) n Hn) as Hk.
    destruct (prev_item_times (Z.to_nat ((c - j - 1) mod n)) a Hi Hne)
      as [ln [s [a' [Hsel [Hrun [_ [_ [Hcb _]]]]]]]].
    fold seq n c in Hsel.
    exists (Z.to_nat ((c - j - 1) mod n)), a'. split; [lia|].
    split; [exact Hrun|].
    rewrite Z2Nat.id in Hsel by lia.
    replace (c - ((c - j - 1) mod n + 1)) with (c - 1 - (c - j - 1) mod n)
      in Hsel by lia.
    rewrite Zminus_mod_idemp_r in Hsel.
    replace (c - 1 - (c - j - 1)) with j in Hsel by lia.
    rewrite Z.mod_small in Hsel by lia.
    rewrite getitem_map, Hsel, Hcb. reflexivity.
Qed.

Lemma retreat_full_cycle_witness :
  0 <= index (set_text abc_text init) /\
  parse_spec (text (set_text abc_text init)) <> [] /\
  exists a', times 3 (prev_item working) (set_text abc_text init) = Returned a'
             /\ index a' = 0.
Proof.
  assert (H0 : 0 <= index (set_text abc_text init)) by (simpl; lia).
  assert (H1 : parse_spec (text (set_text abc_text init)) <> [])
    by (vm_compute; discriminate).
  split; [exact H0|]. split; [exact H1|].
  destruct (retreat_full_cycle (set_text abc_text init) H0 H1)
    as [[a' [Hrun [_ Hidx]]] _].
  exists a'. split; [exact Hrun | exact Hidx].
Defined.

(** X3. [prev_item] and then [next_item] on the same text, with a working
    clipboard, [c] being the clamped cursor and [c' = (c - 1) mod n]: both
    return; the retreat, and then the advance again, remove the tag, tag the
    line of item [c'], empty the clipboard, put item [c'] on it and set the
    label to [c' + 1] of [n], as the effect log of each call shows; the
    cursor ends on [c], where the retreat started from. *)
Theorem retreat_then_advance (a : App)
  (Hi : 0 <= index a) (Hne : parse_spec (text a) <> []) :
  let seq := parse_spec (text a) in
  let n := len seq in
  let c := Z.min (index a) (n - 1) in
  let c' := (c - 1) mod n in
  exists ln s a1 a2,
    getitem seq c' = Some (ln, s) /\
    prev_item working a = Returned a1 /\
    next_item working a1 = Returned a2 /\
    tagged a1 = [ln] /\ clipboard a1 = s /\ label a1 = label_of (c' + 1) n /\
    tagged a2 = [ln] /\ clipboard a2 = s /\ label a2 = label_of (c' + 1) n /\
    tagged a2 = tagged a1 /\ clipboard a2 = clipboard a1 /\
    label a2 = label a1 /\ index a1 = c' /\ index a2 = c /\
    log a1 = log a ++ [TagRemove; TagAdd ln; See ln; ClipboardClear;
                       ClipboardAppend s; Update;
                       LabelConfigure (label_of (c' + 1) n)] /\
    log a2 = log a1 ++ [TagRemove; TagAdd ln; See ln; ClipboardClear;
                        ClipboardAppend s; Update;
                        LabelConfigure (label_of (c' + 1) n)].
Proof.
  intros seq n c c'.
  destruct (prev_item_nonempty working a Hi Hne) as [ln [s [Hc [Hsel Hw]]]].
  fold seq n c c' in Hc, Hsel, Hw. simpl in Hw.
  match type of Hw with _ = Returned ?x => set (a1 := x) in * end.
  assert (Hi1 : 0 <= index a1) by (change (0 <= c'); lia).
  assert (Hne1 : parse_spec (text a1) <> []) by exact Hne.
  destruct (next_item_nonempty working a1 Hi1 Hne1) as [ln' [s' [_ [Hsel' Hw']]]].
  change (text a1) with (text a) in Hsel', Hw'.
  change (index a1) with c' in Hsel', Hw'.
  fold seq n in Hsel', Hw'.
  rewrite (Z.min_l c' (n - 1)) in Hsel', Hw' by lia.
  rewrite Hsel in Hsel'. injection Hsel' as <- <-.
  pose proof (len_pos _ Hne) as Hn. fold seq n in Hn.
  assert (Hcr : 0 <= c < n) by (unfold c; lia).
  assert (Hfwd : (c' + 1) mod n = c) by (apply advance_undoes_retreat, Hcr).
  rewrite Hfwd in Hw'. simpl in Hw'.
  exists ln, s, a1. eexists.
  split; [exact Hsel|]. split; [exact Hw|]. split; [exact Hw'|].
  simpl. repeat (split; [reflexivity|]).
  split; now rewrite <- !app_assoc.
Qed.

Lemma retreat_then_advance_witness :
  0 <= index (set_text abc_text init) /\
  parse_spec (text (set_text abc_text init)) <> [] /\
  exists a1 a2,
    prev_item working (set_text abc_text init) = Returned a1 /\
    next_item working a1 = Returned a2 /\
    clipboard a1 = lit "c" /\ clipboard a2 = lit "c" /\ tagged a2 = [4] /\
    index a2 = 0.
Proof.
  assert (H0 : 0 <= index (set_text abc_text init)) by (simpl; lia).
  assert (H1 : parse_spec (text (set_text abc_text init)) <> [])
    by (vm_compute; discriminate).
  split; [exact H0|]. split; [exact H1|].
  destruct (retreat_then_advance (set_text abc_text init) H0 H1)
    as [ln [s [a1 [a2 [Hsel [Hp [Hn [_ [Hc1 [_ [Ht2 [Hc2 [_ [_ [_ [_ [_
        [Hidx _]]]]]]]]]]]]]]]]]].
  vm_compute in Hsel. injection Hsel as Eln Es.
  exists a1, a2. split; [exact Hp|]. split; [exact Hn|].
  split; [rewrite Hc1; symmetry; exact Es|].
  split; [rewrite Hc2; symmetry; exact Es|].
  split; [rewrite Ht2, <- Eln; reflexivity|]. exact Hidx.
Defined.

(** X4. The stored [items] and [line_map] never reach a navigation call:
    whatever they hold, [next_item] and [prev_item] do what they do on the
    current text, cursor, label, tag and clipboard. *)
Theorem navigation_ignores_stored_sequence
  (h : Host) (a : App) (its : list str) (lm : list Z) :
  next_item h (set_parsed its lm (index a) a) = next_item h a /\
  prev_item h (set_parsed its lm (index a) a) = prev_item h a.
Proof.
  assert (E : _refresh_items (set_parsed its lm (index a) a) = _refresh_items a).
  { rewrite !refresh_items_refreshed. reflexivity. }
  unfold next_item, prev_item, andthen. rewrite E. split; reflexivity.
Qed.

(** ** What the string operations keep out *)

Lemma single_line_rev (s : str) : single_line (rev s) = single_line s.
Proof.
  unfold single_line. destruct (forallb _ s) eqn:E.
  - apply forallb_forall. intros x Hx. apply in_rev in Hx.
    rewrite forallb_forall in E. now apply E.
  - destruct (forallb _ (rev s)) eqn:E'; [|reflexivity].
    rewrite <- E. symmetry. apply forallb_forall. intros x Hx.
    rewrite forallb_forall in E'. apply E'. now apply in_rev in Hx.
Qed.

Lemma splitlines_from_single (n : nat) (s cur : str) :
  (length s <= n)%nat -> single_line cur = true ->
  Forall (fun l => single_line l = true) (splitlines_from cur s).
Proof.
  revert s cur. induction n as [|n IH]; intros s cur Hlen Hcur.
  - destruct s; [|simpl in Hlen; lia]. simpl.
    destruct cur; [constructor|].
    constructor; [now rewrite single_line_rev | constructor].
  - destruct s as [|c rest]; simpl.
    + destruct cur; [constructor|].
      constructor; [now rewrite single_line_rev | constructor].
    + simpl in Hlen. destruct (is_linebreak c) eqn:Eb.
      * constructor; [now rewrite single_line_rev|].
        destruct (N.eqb c CR).
        -- destruct rest as [|c' rest'].
           ++ apply IH; [simpl; lia | reflexivity].
           ++ destruct (N.eqb c' LF); apply IH; simpl in *; try lia;
                reflexivity.
        -- apply IH; [lia | reflexivity].
      * apply IH; [lia|]. unfold single_line in *. simpl. now rewrite Eb.
Qed.

Lemma splitlines_single (t line : str) :
  In line (splitlines t) -> single_line line = true.
Proof.
  intros Hin.
  pose proof (splitlines_from_single (length t) t [] (le_n _) eq_refl) as H.
  rewrite Forall_forall in H. now apply H.
Qed.

Lemma lstrip_split (s : str) : exists pre, s = pre ++ lstrip s.
Proof.
  induction s as [|c s [pre IH]]; [now exists []|]. simpl.
  destruct (is_space c); [|now exists []].
  exists (c :: pre). simpl. now rewrite <- IH.
Qed.

Lemma lstrip_head (s : str) (c : char) (r : str) :
  lstrip s = c :: r -> is_space c = false.
Proof.
  induction s as [|x s IH]; simpl; [discriminate|].
  destruct (is_space x) eqn:E; [exact IH|].
  intros H. injection H as <- _. exact E.
Qed.

Lemma lstrip_In (s : str) (x : char) : In x (lstrip s) -> In x s.
Proof.
  destruct (lstrip_split s) as [pre E]. intros H. rewrite E.
  apply in_or_app. now right.
Qed.

Lemma strip_In (s : str) (x : char) : In x (strip s) -> In x s.
Proof.
  unfold strip, rstrip. intros H.
  apply in_rev in H. apply lstrip_In in H. apply in_rev in H.
  now apply lstrip_In in H.
Qed.

Lemma strip_single_line (s : str) :
  single_line s = true -> single_line (strip s) = true.
Proof.
  unfold single_line. rewrite !forallb_forall. intros H x Hx.
  apply H. now apply strip_In.
Qed.

(** A trimmed line that is not empty has no white space at either end. *)
Lemma strip_trimmed (s : str) : truthy (strip s) = true -> trimmed (strip s) = true.
Proof.
  unfold strip, rstrip. set (t := lstrip s).
  destruct (lstrip_split (rev t)) as [pre E].
  set (u := lstrip (rev t)) in *.
  assert (Et : t = rev u ++ rev pre).
  { rewrite <- (rev_involutive t), E. apply rev_app_distr. }
  destruct u as [|x u'] eqn:Eu; [discriminate|]. intros _.
  assert (Hx : is_space x = false) by (apply (lstrip_head (rev t) x u'); exact Eu).
  simpl rev in *. unfold trimmed.
  destruct (rev u' ++ [x]) as [|c r] eqn:Er.
  { destruct (rev u'); discriminate. }
  rewrite <- Er, last_last, Hx.
  assert (Hc : is_space c = false).
  { apply (lstrip_head s c (r ++ rev pre)). exact Et. }
  now rewrite Hc.
Qed.

(** An item of the parsed sequence is one non-empty line without a line
    break and without white space at either end. *)
Lemma parse_spec_item_clean (t : str) (ln : Z) (s : str) :
  In (ln, s) (parse_spec t) -> single_line s = true /\ trimmed s = true.
Proof.
  intros Hin. apply parse_spec_In in Hin.
  destruct Hin as [line [_ [Hnth [-> Hnb]]]].
  apply nth_error_In in Hnth. split.
  - apply strip_single_line. now apply (splitlines_single t).
  - now apply strip_trimmed.
Qed.

Lemma getitem_In {A} (l : list A) (i : Z) (x : A) :
  0 <= i < len l -> getitem l i = Some x -> In x l.
Proof.
  intros Hi H. rewrite getitem_in_range in H by exact Hi.
  now apply nth_error_In in H.
Qed.

(** ** What a navigation call can leave behind *)

(** The state after either call, returned or raised: nothing moved (empty
    sequence), or the line of one item of the current text is tagged and
    the clipboard and label are as before, emptied, or show that item. *)
Lemma navigation_state (h : Host) (a st : App) :
  0 <= index a ->
  st = state_of (next_item h a) \/ st = state_of (prev_item h a) ->
  let n := len (parse_spec (text a)) in
  text st = text a /\ len (items st) = len (line_map st) /\
  ((tagged st = tagged a /\ clipboard st = clipboard a /\ label st = label a)
   \/
   exists ln s i,
     0 <= i < n /\ In (ln, s) (parse_spec (text a)) /\
     tagged st = [ln] /\
     (clipboard st = clipboard a \/ clipboard st = [] \/ clipboard st = s) /\
     (label st = label a \/ label st = label_of (i + 1) n)).
Proof.
  intros Hi Hst n.
  assert (Hcase : parse_spec (text a) = [] \/ parse_spec (text a) <> []).
  { destruct (parse_spec (text a)); [now left | right; discriminate]. }
  destruct Hcase as [E|Hne].
  - rewrite next_item_empty, prev_item_empty in Hst by exact E.
    assert (Hs : st = set_parsed [] [] (Z.min (index a) 0) a) by tauto.
    subst st. simpl. split; [reflexivity|]. split; [reflexivity|]. now left.
  - destruct (next_item_nonempty h a Hi Hne) as [ln1 [s1 [Hc1 [Hsel1 Hn]]]].
    destruct (prev_item_nonempty h a Hi Hne) as [ln2 [s2 [Hc2 [Hsel2 Hp]]]].
    fold n in Hc1, Hc2, Hsel1, Hsel2.
    pose proof (getitem_In _ _ _ Hc1 Hsel1) as Hin1.
    pose proof (getitem_In _ _ _ Hc2 Hsel2) as Hin2.
    rewrite Hn, Hp in Hst. cbv zeta in Hst.
    destruct Hst as [Hst|Hst]; subst st;
      (destruct (clear_ok h); [destruct (append_ok h)|]); simpl;
      (split; [reflexivity|]); (split; [now rewrite !len_map|]); right.
    all: [> exists ln1, s1, (Z.min (index a) (n - 1))
          | exists ln1, s1, (Z.min (index a) (n - 1))
          | exists ln1, s1, (Z.min (index a) (n - 1))
          | exists ln2, s2, ((Z.min (index a) (n - 1) - 1) mod n)
          | exists ln2, s2, ((Z.min (index a) (n - 1) - 1) mod n)
          | exists ln2, s2, ((Z.min (index a) (n - 1) - 1) mod n) ].
    all: split; [assumption|]; split; [assumption|]; split; [reflexivity|].
    all: split;
      [ first [left; reflexivity | right; left; reflexivity
              | right; right; reflexivity]
      | first [left; reflexivity | right; reflexivity] ].
Qed.

(** X5. When [next_item] or [prev_item] returns on a text that has items,
    exactly one line is tagged, it is a line of the current text, and the
    clipboard holds that line trimmed. *)
Theorem highlight_matches_clipboard (h : Host) (a a' : App)
  (Hi : 0 <= index a) (Hne : parse_spec (text a) <> [])
  (Hret : next_item h a = Returned a' \/ prev_item h a = Returned a') :
  exists ln line,
    tagged a' = [ln] /\ 1 <= ln /\
    nth_error (splitlines (text a')) (Z.to_nat (ln - 1)) = Some line /\
    clipboard a' = strip line /\ clipboard a' <> [].
Proof.
  destruct (next_item_nonempty h a Hi Hne) as [ln1 [s1 [Hc1 [Hsel1 Hn]]]].
  destruct (prev_item_nonempty h a Hi Hne) as [ln2 [s2 [Hc2 [Hsel2 Hp]]]].
  pose proof (getitem_In _ _ _ Hc1 Hsel1) as Hin1.
  pose proof (getitem_In _ _ _ Hc2 Hsel2) as Hin2.
  apply parse_spec_In in Hin1. destruct Hin1 as [l1 [Hl1 [Hnth1 [Hs1 Hnb1]]]].
  apply parse_spec_In in Hin2. destruct Hin2 as [l2 [Hl2 [Hnth2 [Hs2 Hnb2]]]].
  rewrite Hn, Hp in Hret. cbv zeta in Hret.
  destruct (clear_ok h); [destruct (append_ok h)|];
    destruct Hret as [Hret|Hret]; try discriminate;
    injection Hret as <-; simpl.
  - exists ln1, l1. repeat split; try assumption.
    intros E. rewrite Hs1 in E. rewrite E in Hnb1. discriminate.
  - exists ln2, l2. repeat split; try assumption.
    intros E. rewrite Hs2 in E. rewrite E in Hnb2. discriminate.
Qed.

Lemma highlight_matches_clipboard_witness :
  0 <= index shrunk /\ parse_spec (text shrunk) <> [] /\
  (next_item working shrunk = Returned (state_of (next_item working shrunk)) \/
   prev_item working shrunk = Returned (state_of (next_item working shrunk)))
  /\ exists ln line,
       tagged (state_of (next_item working shrunk)) = [ln] /\
       nth_error (splitlines (text shrunk)) (Z.to_nat (ln - 1)) = Some line /\
       clipboard (state_of (next_item working shrunk)) = strip line.
Proof.
  assert (H0 : 0 <= index shrunk) by (vm_compute; discriminate).
  assert (H1 : parse_spec (text shrunk) <> []) by (vm_compute; discriminate).
  assert (H2 : next_item working shrunk
               = Returned (state_of (next_item working shrunk)) \/
               prev_item working shrunk
               = Returned (state_of (next_item working shrunk)))
    by (left; reflexivity).
  split; [exact H0|]. split; [exact H1|]. split; [exact H2|].
  destruct (highlight_matches_clipboard working shrunk _ H0 H1 H2)
    as [ln [line [Ht [_ [Hnth [Hcb _]]]]]].
  exists ln, line. repeat split; assumption.
Defined.

(** After either call, returned or raised, the stored sequence is the one
    parsed from the text of the call. *)
Lemma navigation_stores_parse (h : Host) (a st : App) :
  0 <= index a ->
  st = state_of (next_item h a) \/ st = state_of (prev_item h a) ->
  items st = map snd (parse_spec (text a)) /\
  line_map st = map fst (parse_spec (text a)).
Proof.
  intros Hi Hst.
  assert (Hcase : parse_spec (text a) = [] \/ parse_spec (text a) <> []).
  { destruct (parse_spec (text a)); [now left | right; discriminate]. }
  destruct Hcase as [E|Hne].
  - rewrite next_item_empty, prev_item_empty in Hst by exact E.
    assert (Hs : st = set_parsed [] [] (Z.min (index a) 0) a) by tauto.
    subst st. rewrite E. now split.
  - destruct (next_item_nonempty h a Hi Hne) as [ln1 [s1 [_ [_ Hn]]]].
    destruct (prev_item_nonempty h a Hi Hne) as [ln2 [s2 [_ [_ Hp]]]].
    rewrite Hn, Hp in Hst. cbv zeta in Hst.
    destruct Hst as [Hst|Hst]; subst st;
      (destruct (clear_ok h); [destruct (append_ok h)|]); now split.
Qed.

(** X6. In every state the application can reach, the stored [items] and
    [line_map] are the two halves of one parse: there is a text (the one of
    the last navigation call, the empty one at start) whose item sequence
    they hold, so they have the same length, the line numbers increase and
    start at 1 or above, also after the text box was edited since. *)
Theorem reachable_stored_sequence (a : App) (Hr : reachable a) :
  (exists t, items a = map snd (parse_spec t) /\
             line_map a = map fst (parse_spec t)) /\
  len (items a) = len (line_map a) /\
  StronglySorted Z.lt (line_map a) /\
  Forall (fun ln => 1 <= ln) (line_map a).
Proof.
  assert (Hex : exists t, items a = map snd (parse_spec t) /\
                          line_map a = map fst (parse_spec t)).
  { induction Hr as [|a t Hr IH|a h Hr IH|a h Hr IH].
    - exists []. now split.
    - exact IH.
    - exists (text a). apply (navigation_stores_parse h a).
      + now apply reachable_index_nonneg.
      + now left.
    - exists (text a). apply (navigation_stores_parse h a).
      + now apply reachable_index_nonneg.
      + now right. }
  split; [exact Hex|]. destruct Hex as [t [Hit Hlm]].
  rewrite Hit, Hlm. split; [now rewrite !len_map|]. split.
  - rewrite parse_spec_lines. apply enumerate_filter_sorted.
  - apply Forall_forall. intros ln Hin. apply in_map_iff in Hin.
    destruct Hin as [[ln' s] [<- Hin]]. apply parse_spec_In in Hin.
    destruct Hin as [line [Hge _]]. exact Hge.
Qed.

Lemma reachable_stored_sequence_witness :
  reachable shrunk /\ text shrunk = lit "a" /\
  items shrunk = [lit "a"; lit "b"; lit "c"] /\ line_map shrunk = [1; 3; 4] /\
  len (items shrunk) = len (line_map shrunk).
Proof.
  assert (Hr : reachable shrunk).
  { unfold shrunk. apply reach_edit, reach_prev, reach_edit, reach_init. }
  split; [exact Hr|]. split; [reflexivity|]. split; [reflexivity|].
  split; [reflexivity|].
  exact (proj1 (proj2 (reachable_stored_sequence shrunk Hr))).
Defined.

(** X7. In every state the application can reach, the clipboard content
    the application left is empty (nothing copied yet, or a copy that raised
    after the clipboard was emptied) or is one non-empty line with no line
    break inside and no white space at either end. *)
Theorem reachable_clipboard_clean (a : App) (Hr : reachable a) :
  clipboard a = [] \/
  (single_line (clipboard a) = true /\ trimmed (clipboard a) = true).
Proof.
  induction Hr as [|a t Hr IH|a h Hr IH|a h Hr IH].
  - now left.
  - exact IH.
  - pose proof (reachable_index_nonneg a Hr) as Hi.
    destruct (navigation_state h a _ Hi (or_introl eq_refl))
      as [_ [_ [[_ [Hc _]]|[ln [s [i [_ [Hin [_ [[Hc|[Hc|Hc]] _]]]]]]]]]];
      rewrite Hc; try exact IH; [now left|].
    right. exact (parse_spec_item_clean _ _ _ Hin).
  - pose proof (reachable_index_nonneg a Hr) as Hi.
    destruct (navigation_state h a _ Hi (or_intror eq_refl))
      as [_ [_ [[_ [Hc _]]|[ln [s [i [_ [Hin [_ [[Hc|[Hc|Hc]] _]]]]]]]]]];
      rewrite Hc; try exact IH; [now left|].
    right. exact (parse_spec_item_clean _ _ _ Hin).
Qed.

Lemma reachable_clipboard_clean_witness :
  reachable shrunk /\ clipboard shrunk = lit "c" /\
  single_line (clipboard shrunk) = true /\ trimmed (clipboard shrunk) = true.
Proof.
  assert (Hr : reachable shrunk).
  { unfold shrunk. apply reach_edit, reach_prev, reach_edit, reach_init. }
  split; [exact Hr|]. split; [reflexivity|].
  destruct (reachable_clipboard_clean shrunk Hr) as [E|H];
    [vm_compute in E; discriminate | exact H].
Defined.

(** X8. In every state the application can reach, the label reads 0 / 0,
    as at start, or [k / n] with [1 <= k <= n]: a position is never shown
    outside the sequence it was computed for. *)
Theorem reachable_label_form (a : App) (Hr : reachable a) :
  label a = lit "0 / 0" \/
  exists k n, 1 <= k <= n /\ label a = label_of k n.
Proof.
  induction Hr as [|a t Hr IH|a h Hr IH|a h Hr IH].
  - now left.
  - exact IH.
  - pose proof (reachable_index_nonneg a Hr) as Hi.
    destruct (navigation_state h a _ Hi (or_introl eq_refl))
      as [_ [_ [[_ [_ Hl]]|[ln [s [i [Hi' [_ [_ [_ [Hl|Hl]]]]]]]]]]];
      rewrite Hl; try exact IH.
    right. exists (i + 1), (len (parse_spec (text a))). split; [lia|reflexivity].
  - pose proof (reachable_index_nonneg a Hr) as Hi.
    destruct (navigation_state h a _ Hi (or_intror eq_refl))
      as [_ [_ [[_ [_ Hl]]|[ln [s [i [Hi' [_ [_ [_ [Hl|Hl]]]]]]]]]]];
      rewrite Hl; try exact IH.
    right. exists (i + 1), (len (parse_spec (text a))). split; [lia|reflexivity].
Qed.

Lemma reachable_label_form_witness :
  reachable shrunk /\ label shrunk = label_of 3 3.
Proof.
  assert (Hr : reachable shrunk).
  { unfold shrunk. apply reach_edit, reach_prev, reach_edit, reach_init. }
  split; [exact Hr|].
  destruct (reachable_label_form shrunk Hr) as [E|[k [n [_ E]]]];
    reflexivity.
Defined.

End CycleFacts.

(** ** More on the registration of hot-keys *)

Module HooksMore.
Import Hooks HooksFacts Settings.

Lemma reset_keyboard_hotkeys_missing (env : Env) (s : Hooks) :
  can_reset (kb env) = false -> _reset_keyboard_hotkeys env s = Returned s.
Proof.
  unfold can_reset, _reset_keyboard_hotkeys. intros H.
  destruct (has_clear_all_hotkeys (kb env)); [discriminate|].
  destruct (has_remove_all_hotkeys (kb env)); [discriminate|].
  destruct (has_unhook_all_hotkeys (kb env)); [discriminate|reflexivity].
Qed.

(** The outcome of the registration with the [keyboard] backend. *)
Lemma register_global_hooks_outcome (env : Env) (s : Hooks) :
  backend env = BackendKeyboard ->
  _register_global_hooks env s =
  match rejects (kb env) (lit "ctrl+v") with
  | Some msg => Raised (ValueError msg) (bound env s)
  | None =>
      Returned (set_registered
                  (registered (bound env s) ++ [(lit "ctrl+v", TkSafe ActNext)])
                  (bound env s))
  end.
Proof.
  intros Hb. unfold _register_global_hooks. rewrite Hb. unfold andthen, bound.
  destruct (can_reset (kb env)) eqn:Hreset.
  - rewrite reset_keyboard_hotkeys_clears by exact Hreset.
    rewrite for_each_register_one. reflexivity.
  - rewrite reset_keyboard_hotkeys_missing by exact Hreset.
    rewrite for_each_register_one. reflexivity.
Qed.

Lemma register_global_hooks_other (env : Env) (s : Hooks) :
  backend env <> BackendKeyboard ->
  returned (_register_global_hooks env s) = true /\
  registered (state_of (_register_global_hooks env s)) = registered s /\
  dialogs (state_of (_register_global_hooks env s)) = dialogs s /\
  hotkeys (state_of (_register_global_hooks env s)) = hotkeys s.
Proof.
  intros Hb. unfold _register_global_hooks.
  destruct (backend env); [congruence| |now repeat split].
  destruct (pynput_found env); now repeat split.
Qed.

Lemma register_global_hooks_hotkeys (env : Env) (s : Hooks) :
  hotkeys (state_of (_register_global_hooks env s)) = hotkeys s.
Proof.
  destruct (backend env) eqn:Hb.
  - rewrite register_global_hooks_outcome by exact Hb.
    destruct (rejects (kb env) (lit "ctrl+v")); reflexivity.
  - apply register_global_hooks_other. congruence.
  - apply register_global_hooks_other. congruence.
Qed.

(** X9. Whatever packages the imports find, the registration never starts
    the [pynput] listener; and when the [keyboard] package is missing, with
    or without [pynput], it returns leaving everything as it was: no global
    hot-key is set up. *)
Theorem pynput_listener_never_started
  (keyboard_found pynput_there : bool) (k : KeyboardLib) (s : Hooks) :
  listeners
    (state_of
       (_register_global_hooks
          (mkEnv (global_hook_backend keyboard_found pynput_there) k
                 pynput_there) s))
  = listeners s /\
  _register_global_hooks
    (mkEnv (global_hook_backend false pynput_there) k pynput_there) s
  = Returned s.
Proof.
  rewrite !global_hook_backend_values. split; [|reflexivity].
  destruct keyboard_found; [|reflexivity].
  rewrite register_global_hooks_outcome by reflexivity.
  destruct (rejects _ _); reflexivity.
Qed.

(** X10. With the [keyboard] backend and a package that can remove its
    hot-keys, registering a second time leaves the same hot-keys registered
    as the first time, none twice, and shows the error boxes of the refused
    combos once more. *)
Theorem registration_repeats_cleanly (env : Env) (s : Hooks)
  (Hb : backend env = BackendKeyboard)
  (Hreset : can_reset (kb env) = true) :
  let s1 := state_of (_register_global_hooks env s) in
  let s2 := state_of (_register_global_hooks env s1) in
  registered s2 = registered s1 /\ hotkeys s2 = hotkeys s /\
  dialogs s2 = dialogs s1 ++ flat_map (dialogs_for env) (hotkeys s).
Proof.
  cbv zeta.
  rewrite (register_global_hooks_keyboard env _ Hb Hreset).
  rewrite (register_global_hooks_keyboard env s Hb Hreset).
  simpl. repeat split.
Qed.

Lemma registration_repeats_cleanly_witness :
  backend picky = BackendKeyboard /\ can_reset (kb picky) = true /\
  let s1 := state_of (_register_global_hooks picky bad_next) in
  let s2 := state_of (_register_global_hooks picky s1) in
  registered s2 = registered s1 /\ length (dialogs s2) = 2%nat.
Proof.
  assert (Hb : backend picky = BackendKeyboard) by reflexivity.
  assert (Hreset : can_reset (kb picky) = true) by reflexivity.
  split; [exact Hb|]. split; [exact Hreset|].
  destruct (registration_repeats_cleanly picky bad_next Hb Hreset)
    as [Hreg [_ Hdlg]].
  cbv zeta. split; [exact Hreg|]. rewrite Hdlg. reflexivity.
Defined.

(** X11. With the [keyboard] backend and a package that has none of the
    three removal names, the failed removal is swallowed and the hot-keys
    registered before stay: the new ones are added after them. *)
Theorem registration_without_removal_accumulates (env : Env) (s : Hooks)
  (Hb : backend env = BackendKeyboard)
  (Hreset : can_reset (kb env) = false) :
  registered (state_of (_register_global_hooks env s)) =
  registered s ++ flat_map (entry_for env) (hotkeys s) ++ paste_entry env.
Proof.
  rewrite register_global_hooks_outcome by exact Hb.
  unfold bound, paste_entry. rewrite Hreset.
  destruct (rejects (kb env) (lit "ctrl+v")); simpl.
  - now rewrite app_nil_r.
  - now rewrite <- app_assoc.
Qed.

Lemma registration_without_removal_accumulates_witness :
  backend ancient = BackendKeyboard /\ can_reset (kb ancient) = false /\
  registered (state_of (_register_global_hooks ancient bad_next)) =
  [(lit "ctrl+shift+alt+right", TkSafe ActNext);
   (lit "bad!!combo", TkSafe ActNext);
   (lit "ctrl+left", TkSafe ActPrev);
   (lit "ctrl+v", TkSafe ActNext)].
Proof.
  assert (Hb : backend ancient = BackendKeyboard) by reflexivity.
  assert (Hreset : can_reset (kb ancient) = false) by reflexivity.
  split; [exact Hb|]. split; [exact Hreset|].
  rewrite (registration_without_removal_accumulates ancient bad_next Hb Hreset).
  reflexivity.
Defined.

(** X13. The registration only ever adds callbacks that go through
    [tk_safe]: if every registered hot-key is marshalled before the call,
    every one is after it, with any backend and any outcome. *)
Theorem global_callbacks_marshalled (env : Env) (s : Hooks)
  (H : forall e, In e (registered s) -> is_tk_safe (snd e) = true) :
  forall e, In e (registered (state_of (_register_global_hooks env s))) ->
            is_tk_safe (snd e) = true.
Proof.
  intros e. destruct (backend env) eqn:Hb.
  - rewrite register_global_hooks_outcome by exact Hb.
    assert (Hbound : forall e0, In e0 (registered (bound env s)) ->
                                is_tk_safe (snd e0) = true).
    { intros e0 Hin. unfold bound in Hin. simpl in Hin.
      apply in_app_or in Hin. destruct Hin as [Hin|Hin].
      - destruct (can_reset (kb env)); [contradiction | now apply H].
      - apply in_flat_map in Hin. destruct Hin as [p [_ Hin]].
        unfold entry_for in Hin. destruct (rejects (kb env) (snd p));
          [contradiction|]. destruct Hin as [<-|[]]. reflexivity. }
    destruct (rejects (kb env) (lit "ctrl+v")); simpl; [apply Hbound|].
    intros Hin. apply in_app_or in Hin. destruct Hin as [Hin|[<-|[]]];
      [now apply Hbound | reflexivity].
  - destruct (register_global_hooks_other env s) as [_ [-> _]];
      [congruence | apply H].
  - destruct (register_global_hooks_other env s) as [_ [-> _]];
      [congruence | apply H].
Qed.

Lemma global_callbacks_marshalled_witness :
  (forall e, In e (registered bad_next) -> is_tk_safe (snd e) = true) /\
  is_tk_safe
    (snd (lit "ctrl+left", TkSafe ActPrev)) = true.
Proof.
  assert (H : forall e, In e (registered bad_next) -> is_tk_safe (snd e) = true).
  { intros e [<-|[]]. reflexivity. }
  split; [exact H|].
  apply (global_callbacks_marshalled picky bad_next H).
  simpl. left. reflexivity.
Defined.

(** ** Saving the settings *)

(** X14. [on_settings_saved] with the [keyboard] backend and a package that
    can remove its hot-keys.  The new bindings replace the old in either
    case.  If the settings file cannot be written, nothing is registered
    anew: the hot-keys of the old bindings stay.  If it is written, the
    hot-keys are rebuilt from the new bindings alone. *)
Theorem settings_saved_outcomes (env : Env) (new_hotkeys : list (str * str))
  (s : Hooks)
  (Hb : backend env = BackendKeyboard)
  (Hreset : can_reset (kb env) = true) :
  let failed := hooks_of (Settings.on_settings_saved env false new_hotkeys s) in
  let saved := hooks_of (Settings.on_settings_saved env true new_hotkeys s) in
  hotkeys failed = new_hotkeys /\ registered failed = registered s /\
  dialogs failed = dialogs s /\
  hotkeys saved = new_hotkeys /\
  registered saved = flat_map (entry_for env) new_hotkeys ++ paste_entry env /\
  dialogs saved = dialogs s ++ flat_map (dialogs_for env) new_hotkeys.
Proof.
  cbv zeta. unfold Settings.on_settings_saved. simpl hooks_of.
  rewrite (register_global_hooks_keyboard env _ Hb Hreset). simpl.
  repeat split.
Qed.

Lemma settings_saved_outcomes_witness :
  backend picky = BackendKeyboard /\ can_reset (kb picky) = true /\
  registered (hooks_of (Settings.on_settings_saved picky false
                          DEFAULT_HOTKEYS bad_next))
  = [(lit "ctrl+shift+alt+right", TkSafe ActNext)] /\
  registered (hooks_of (Settings.on_settings_saved picky true
                          DEFAULT_HOTKEYS bad_next))
  = [(lit "ctrl+shift+alt+right", TkSafe ActNext);
     (lit "ctrl+shift+alt+left", TkSafe ActPrev);
     (lit "ctrl+v", TkSafe ActNext)].
Proof.
  assert (Hb : backend picky = BackendKeyboard) by reflexivity.
  assert (Hreset : can_reset (kb picky) = true) by reflexivity.
  split; [exact Hb|]. split; [exact Hreset|].
  destruct (settings_saved_outcomes picky DEFAULT_HOTKEYS bad_next Hb Hreset)
    as [_ [Hf [_ [_ [Hs _]]]]].
  split; [rewrite Hf; reflexivity | rewrite Hs; reflexivity].
Defined.

Lemma dialog_save_bindings_aux (env : Env) (write_ok : bool)
  (d : SettingsDialog) (s : Hooks) :
  hotkeys (hooks_of (fst (_save env write_ok d s)))
  = [(lit "next", strip (next_var d)); (lit "prev", strip (prev_var d))] /\
  local_bindings (hooks_of (fst (_save env write_ok d s))) = local_bindings s.
Proof.
  unfold _save, Settings.on_settings_saved.
  destruct write_ok; simpl; [|now split].
  now rewrite register_global_hooks_hotkeys, register_global_hooks_local.
Qed.

(** X15. [SettingsDialog._save], with any backend: afterwards the bindings
    are exactly two, [next] and [prev] in this order, holding the contents
    of the two fields trimmed, whatever bindings there were before; the
    bindings of the window are untouched; the dialog is destroyed exactly
    when the file was written and the registration returned. *)
Theorem dialog_save_bindings (env : Env) (write_ok : bool)
  (d : SettingsDialog) (s : Hooks) :
  let new_hotkeys := [(lit "next", strip (next_var d));
                      (lit "prev", strip (prev_var d))] in
  let r := _save env write_ok d s in
  hotkeys (hooks_of (fst r)) = new_hotkeys /\
  local_bindings (hooks_of (fst r)) = local_bindings s /\
  snd r = write_ok
          && returned (_register_global_hooks env (set_hotkeys new_hotkeys s)).
Proof.
  cbv zeta. unfold _save, Settings.on_settings_saved.
  destruct write_ok; simpl.
  - rewrite register_global_hooks_hotkeys, register_global_hooks_local.
    split; [reflexivity|]. split; [reflexivity|].
    destruct (_register_global_hooks env _); reflexivity.
  - repeat split.
Qed.

Lemma strip_of_trimmed (x : str) : Cycle.trimmed x = true -> strip x = x.
Proof.
  destruct x as [|c r]; [discriminate|]. unfold Cycle.trimmed.
  intros H. apply andb_true_iff in H. destruct H as [Hc Hl].
  apply negb_true_iff in Hc, Hl.
  unfold strip, rstrip. simpl lstrip. rewrite Hc.
  assert (Hne : c :: r <> []) by discriminate.
  pose proof (app_removelast_last c Hne) as E.
  remember (last (c :: r) c) as x eqn:Ex.
  remember (removelast (c :: r)) as l eqn:El.
  rewrite E, rev_unit. simpl lstrip. rewrite Hl.
  simpl rev. now rewrite rev_involutive.
Qed.

(** X16. Opening the settings dialog and saving it without touching the
    fields leaves the bindings as they were, when these are the two bindings
    [next] and [prev] with trimmed combos, as the defaults are. *)
Theorem dialog_save_unedited (env : Env) (write_ok : bool) (s : Hooks)
  (next_combo prev_combo : str)
  (Hk : hotkeys s = [(lit "next", next_combo); (lit "prev", prev_combo)])
  (Hn : Cycle.trimmed next_combo = true)
  (Hp : Cycle.trimmed prev_combo = true) :
  hotkeys (hooks_of (fst (_save env write_ok (open_dialog s) s))) = hotkeys s.
Proof.
  destruct (dialog_save_bindings_aux env write_ok (open_dialog s) s) as [-> _].
  unfold open_dialog. rewrite Hk. simpl.
  now rewrite (strip_of_trimmed _ Hn), (strip_of_trimmed _ Hp).
Qed.

Lemma dialog_save_unedited_witness :
  hotkeys fresh = [(lit "next", lit "ctrl+shift+alt+right");
                   (lit "prev", lit "ctrl+shift+alt+left")] /\
  Cycle.trimmed (lit "ctrl+shift+alt+right") = true /\
  Cycle.trimmed (lit "ctrl+shift+alt+left") = true /\
  hotkeys (hooks_of (fst (_save picky true (open_dialog fresh) fresh)))
  = DEFAULT_HOTKEYS.
Proof.
  assert (Hk : hotkeys fresh = [(lit "next", lit "ctrl+shift+alt+right");
                                (lit "prev", lit "ctrl+shift+alt+left")])
    by reflexivity.
  assert (Hn : Cycle.trimmed (lit "ctrl+shift+alt+right") = true)
    by reflexivity.
  assert (Hp : Cycle.trimmed (lit "ctrl+shift+alt+left") = true)
    by reflexivity.
  split; [exact Hk|]. split; [exact Hn|]. split; [exact Hp|].
  exact (dialog_save_unedited picky true fresh _ _ Hk Hn Hp).
Defined.

End HooksMore.
